(** * Agent network: the PL/pgSQL matching engine of the database schema

    A shallow embedding of the schema's tables and of its stored functions
    [evaluate_match], [broadcast_request], [record_agent_response] and
    [get_ranked_results], with the properties the specification states
    about them.

    Conventions of the embedding.
    - A table is the list of its rows in heap order; SQL gives that order no
      meaning, so statements about results quantify over what the query
      allows, and the executable functions fix one such order.
    - A nullable column or JSON key is an [option]; SQL NULL is [None].
    - [UUID] values are opaque identifiers, here [nat]; [uuid_generate_v4]
      draws from a counter kept beside the tables, so a generated id never
      collides with a stored one.
    - [FLOAT] values are exact rationals ([Q]); the rounding of IEEE doubles
      is outside the model.  For the quotient of the lengths of two arrays
      that can be stored, compared with 0.3, the rounded and the exact
      comparison agree.
    - JSON values are typed: a skills array holds strings only.
    - A raised SQL error aborts the statement: the function returns
      [Raise e] and no new database. *)

From Stdlib Require Import List String Bool PeanoNat Lia ZArith QArith.
From Stdlib Require Import Qround Qabs Permutation Sorted DecimalString.
Import ListNotations.

Local Open Scope string_scope.
Local Open Scope list_scope.

(** ** Tables *)

Definition uuid := nat.
Bind Scope nat_scope with uuid.

Record user := mk_user {
  u_id : uuid;
  u_email : string;
  u_name : string
}.

(** [profiles]: [bio], [experience_years], [availability], [location] and
    [embedding] are read by none of the functions below and are left out.
    [skills] is a JSON array of strings (default ['[]']); a NULL in that
    column, on which [jsonb_array_elements_text] raises, is left out too. *)
Record profile := mk_profile {
  pr_user_id : uuid;
  title : option string;
  skills : list string
}.

Record connection := mk_connection {
  user_a_id : uuid;
  user_b_id : uuid;
  c_trust_score : option Q
}.

Inductive request_status := active | completed | cancelled.

(** [structured_query] is a JSON object; only its ["skills"] key is read:
    an array of strings, or [None] when the object has no such key. *)
Record service_request := mk_service_request {
  sr_id : uuid;
  requesting_user_id : uuid;
  query_text : string;
  sq_skills : option (list string);
  status : request_status
}.

Record agent_response := mk_agent_response {
  ar_id : uuid;
  ar_request_id : uuid;
  responding_user_id : uuid;
  ar_is_match : bool;
  ar_match_score : option Q;
  match_explanation : option string;
  ar_matched_skills : option (list string)
}.

Inductive message_type := query_broadcast | response | clarification.

Inductive payload :=
| payload_request (request_id : uuid)
| payload_response (response_id : uuid) (is_match : option bool).

Record agent_message := mk_agent_message {
  m_id : uuid;
  from_user_id : uuid;
  to_user_id : option uuid;
  m_type : message_type;
  m_payload : payload;
  m_request_id : option uuid
}.

Record database := mk_database {
  users : list user;
  profiles : list profile;
  connections : list connection;
  service_requests : list service_request;
  agent_responses : list agent_response;
  agent_messages : list agent_message;
  uuid_seq : nat
}.

(** ** SQL and JSON primitives *)

(** [jsonb_array_elements_text]: a NULL argument gives no rows. *)
Definition jsonb_array_elements_text (a : option (list string)) : list string :=
  match a with Some l => l | None => [] end.

(** [jsonb_agg], [json_agg], [array_agg]: NULL over zero rows. *)
Definition sql_agg {A : Type} (rows : list A) : option (list A) :=
  match rows with [] => None | _ :: _ => Some rows end.

Definition jsonb_array_length (a : option (list string)) : option nat :=
  option_map (@List.length string) a.

(** [GREATEST(x, 1)] ignores a NULL argument. *)
Definition greatest_1 (x : option nat) : nat :=
  match x with Some n => Nat.max n 1 | None => 1%nat end.

Definition coalesce {A : Type} (x : option A) (d : A) : A :=
  match x with Some v => v | None => d end.

(** [%s] of an integer in [format]: its decimal digits; NULL prints as the
    empty string. *)
Definition text_of_nat (n : nat) : string :=
  NilEmpty.string_of_uint (Nat.to_uint n).

Definition format_s (x : option nat) : string :=
  match x with Some n => text_of_nat n | None => "" end.

Definition float_of_nat (n : nat) : Q := inject_Z (Z.of_nat n).

(** [skill IN (SELECT ...)] on text: exact, case-sensitive equality. *)
Definition sql_in (skill : string) (l : list string) : bool :=
  existsb (String.eqb skill) l.

(** ** evaluate_match *)

(** The JSON object built by [evaluate_match] and read by
    [record_agent_response]; a key may be absent or null. *)
Record match_evaluation := mk_match_evaluation {
  ev_is_match : option bool;
  ev_match_score : option Q;
  ev_matched_skills : option (list string);
  ev_explanation : option string
}.

Definition match_threshold : Q := 3 # 10.

(** The rows of the skill-matching SELECT: the entries of the profile's
    array that occur in the request's array, in the profile's order. *)
Definition common_skills (request_skills profile_skills : option (list string))
  : list string :=
  filter (fun skill => sql_in skill (jsonb_array_elements_text request_skills))
         (jsonb_array_elements_text profile_skills).

(** The body of [evaluate_match] after its two SELECT INTO: [request_skills]
    is [request_data->'skills'], [profile_skills] is [profile_data->'skills']. *)
Definition evaluate (request_skills profile_skills : option (list string))
  : match_evaluation :=
  let matched_skills := sql_agg (common_skills request_skills profile_skills) in
  match matched_skills with
  | Some _ =>
      let match_score :=
        (float_of_nat (coalesce (jsonb_array_length matched_skills) 0%nat)
         / float_of_nat (greatest_1 (jsonb_array_length request_skills)))%Q in
      {| ev_is_match := Some (Qle_bool match_threshold match_score);
         ev_match_score := Some match_score;
         ev_matched_skills := Some (coalesce matched_skills []);
         ev_explanation :=
           Some ("Matched " ++ format_s (jsonb_array_length matched_skills)
                 ++ " of " ++ format_s (jsonb_array_length request_skills)
                 ++ " required skills")%string |}
  | None =>
      {| ev_is_match := Some false;
         ev_match_score := Some 0%Q;
         ev_matched_skills := Some (coalesce matched_skills []);
         ev_explanation := Some "No matching skills found" |}
  end.

Definition find_request (db : database) (id : uuid) : option service_request :=
  find (fun sr => Nat.eqb (sr_id sr) id) (service_requests db).

Definition find_profile (db : database) (uid : uuid) : option profile :=
  find (fun p => Nat.eqb (pr_user_id p) uid) (profiles db).

Definition bind_opt {A B : Type} (x : option A) (f : A -> option B) : option B :=
  match x with Some a => f a | None => None end.

Definition evaluate_match (db : database) (p_request_id p_candidate_user_id : uuid)
  : match_evaluation :=
  let request_skills := bind_opt (find_request db p_request_id) sq_skills in
  let profile_skills := option_map skills (find_profile db p_candidate_user_id) in
  evaluate request_skills profile_skills.

(** The skills the result reports, and its score and verdict, as plain
    values (every key of the object [evaluate] builds is present). *)
Definition matchedSkills (e : match_evaluation) : list string :=
  coalesce (ev_matched_skills e) [].
Definition score (e : match_evaluation) : Q := coalesce (ev_match_score e) 0%Q.
Definition is_match (e : match_evaluation) : bool := coalesce (ev_is_match e) false.
Definition explanation (e : match_evaluation) : string :=
  coalesce (ev_explanation e) "".

(** ** Statements that write *)

(** The errors the schema's constraints raise (SQLSTATE 23502, 23505, 23503). *)
Inductive sql_error := not_null_violation | unique_violation | foreign_key_violation.

(** Outcome of a function call run as one statement: its value and the new
    database, or a raised error, after which nothing of the call remains. *)
Inductive outcome (A : Type) :=
| Ok (v : A) (db' : database)
| Raise (e : sql_error).
Arguments Ok {A} v db'.
Arguments Raise {A} e.

(** The database a caller sees after the call. *)
Definition commit {A : Type} (db : database) (o : outcome A) : database :=
  match o with Ok _ db' => db' | Raise _ => db end.

Definition user_exists (db : database) (id : uuid) : bool :=
  existsb (fun u => Nat.eqb (u_id u) id) (users db).

Definition request_exists (db : database) (id : uuid) : bool :=
  existsb (fun sr => Nat.eqb (sr_id sr) id) (service_requests db).

(** A nullable foreign key is checked only when it is not NULL. *)
Definition fk_opt (chk : uuid -> bool) (x : option uuid) : bool :=
  match x with Some id => chk id | None => true end.

(** The columns an INSERT INTO agent_messages supplies; [id] is generated. *)
Record message_values := mk_message_values {
  v_from : uuid;
  v_to : option uuid;
  v_type : message_type;
  v_payload : payload;
  v_request : option uuid
}.

Definition insert_agent_message (db : database) (v : message_values) : outcome unit :=
  if user_exists db (v_from v) && fk_opt (user_exists db) (v_to v)
     && fk_opt (request_exists db) (v_request v)
  then Ok tt {| users := users db;
                profiles := profiles db;
                connections := connections db;
                service_requests := service_requests db;
                agent_responses := agent_responses db;
                agent_messages :=
                  agent_messages db ++
                  [mk_agent_message (uuid_seq db) (v_from v) (v_to v) (v_type v)
                     (v_payload v) (v_request v)];
                uuid_seq := S (uuid_seq db) |}
  else Raise foreign_key_violation.

(** INSERT ... SELECT: one row after the other; the first violation aborts. *)
Fixpoint insert_agent_messages (db : database) (rows : list message_values)
  : outcome unit :=
  match rows with
  | [] => Ok tt db
  | v :: rest =>
      match insert_agent_message db v with
      | Ok _ db' => insert_agent_messages db' rest
      | Raise e => Raise e
      end
  end.

(** ** broadcast_request *)

Definition unnest {A : Type} (a : option (list A)) : list A :=
  match a with Some l => l | None => [] end.

(** [array_length(a, 1)]: NULL for a NULL and for an empty array. *)
Definition array_length {A : Type} (a : option (list A)) : option nat :=
  match a with
  | Some (x :: l) => Some (List.length (x :: l))
  | _ => None
  end.

Definition touches (p_user_id : uuid) (c : connection) : bool :=
  Nat.eqb (user_a_id c) p_user_id || Nat.eqb (user_b_id c) p_user_id.

Definition other_end (p_user_id : uuid) (c : connection) : uuid :=
  if Nat.eqb (user_a_id c) p_user_id then user_b_id c else user_a_id c.

Definition connected_users_of (db : database) (p_requesting_user_id : uuid)
  : option (list uuid) :=
  sql_agg (map (other_end p_requesting_user_id)
               (filter (touches p_requesting_user_id) (connections db))).

Record broadcast_result := mk_broadcast_result {
  broadcast_to : option nat;
  br_request_id : uuid;
  br_status : string
}.

Definition broadcast_request (db : database) (p_requesting_user_id p_request_id : uuid)
  : outcome broadcast_result :=
  let connected_users := connected_users_of db p_requesting_user_id in
  match insert_agent_messages db
          (map (fun u => mk_message_values p_requesting_user_id (Some u)
                           query_broadcast (payload_request p_request_id)
                           (Some p_request_id))
               (unnest connected_users)) with
  | Raise e => Raise e
  | Ok _ db' =>
      let response_count := array_length connected_users in
      Ok {| broadcast_to := response_count;
            br_request_id := p_request_id;
            br_status := "sent" |} db'
  end.

(** ** record_agent_response *)

Definition same_pair (rid uid : uuid) (ar : agent_response) : bool :=
  Nat.eqb (ar_request_id ar) rid && Nat.eqb (responding_user_id ar) uid.

(** INSERT INTO agent_responses: NOT NULL on [is_match], then the unique
    index on (request_id, responding_user_id), then the two foreign keys. *)
Definition insert_agent_response (db : database) (rid uid : uuid)
    (ev : match_evaluation) : outcome uuid :=
  match ev_is_match ev with
  | None => Raise not_null_violation
  | Some m =>
      if existsb (same_pair rid uid) (agent_responses db) then Raise unique_violation
      else if request_exists db rid && user_exists db uid then
        Ok (uuid_seq db)
           {| users := users db;
              profiles := profiles db;
              connections := connections db;
              service_requests := service_requests db;
              agent_responses :=
                agent_responses db ++
                [mk_agent_response (uuid_seq db) rid uid m (ev_match_score ev)
                   (ev_explanation ev) (ev_matched_skills ev)];
              agent_messages := agent_messages db;
              uuid_seq := S (uuid_seq db) |}
      else Raise foreign_key_violation
  end.

Definition record_agent_response (db : database)
    (p_request_id p_responding_user_id : uuid) (p_match_evaluation : match_evaluation)
  : outcome uuid :=
  match insert_agent_response db p_request_id p_responding_user_id p_match_evaluation with
  | Raise e => Raise e
  | Ok response_id db1 =>
      match insert_agent_messages db1
              (map (fun sr => mk_message_values p_responding_user_id
                                (Some (requesting_user_id sr)) response
                                (payload_response response_id
                                   (ev_is_match p_match_evaluation))
                                (Some p_request_id))
                   (filter (fun sr => Nat.eqb (sr_id sr) p_request_id)
                           (service_requests db1))) with
      | Raise e => Raise e
      | Ok _ db2 => Ok response_id db2
      end
  end.

(** ** get_connections and get_ranked_results *)

Record connection_info := mk_connection_info {
  ci_user_id : uuid;
  ci_name : string;
  ci_trust_score : option Q
}.

(** [get_connections] ends in [COALESCE(result, '[]')]: never NULL. *)
Definition get_connections (db : database) (p_user_id : uuid) : list connection_info :=
  coalesce
    (sql_agg
       (flat_map (fun c =>
          map (fun u => mk_connection_info (other_end p_user_id c) (u_name u)
                          (c_trust_score c))
              (filter (fun u => Nat.eqb (u_id u) (other_end p_user_id c)) (users db)))
          (filter (touches p_user_id) (connections db))))
    [].

Record ranked_match := mk_ranked_match {
  rm_user_id : uuid;
  rm_name : string;
  rm_title : option string;
  rm_match_score : option Q;
  rm_matched_skills : option (list string);
  rm_explanation : option string;
  rm_trust_score : Q;
  rm_final_score : option Q
}.

(** [a * 0.7 + t * 0.3]; NULL when the match score is NULL. *)
Definition weighted (match_score : option Q) (trust : Q) : option Q :=
  option_map (fun m => (m * (7 # 10) + trust * (3 # 10))%Q) match_score.

(** LEFT JOIN: the matching rows, or one NULL row when there is none. *)
Definition left_join {A : Type} (matching : list A) : list (option A) :=
  match matching with [] => [None] | _ :: _ => map Some matching end.

(** The ON condition of the join with [connections]; it is not true when
    [sr] is the NULL row. *)
Definition edge_between (sr : option service_request) (ar : agent_response)
    (c : connection) : bool :=
  match sr with
  | None => false
  | Some s =>
      (Nat.eqb (user_a_id c) (requesting_user_id s)
         && Nat.eqb (user_b_id c) (responding_user_id ar))
      || (Nat.eqb (user_b_id c) (requesting_user_id s)
            && Nat.eqb (user_a_id c) (responding_user_id ar))
  end.

Definition joined_row : Type :=
  agent_response * user * option profile * option service_request * option connection.

(** The FROM clause of [get_ranked_results]. *)
Definition ranked_from (db : database) : list joined_row :=
  flat_map (fun ar =>
    flat_map (fun u =>
      flat_map (fun p =>
        flat_map (fun sr =>
          map (fun c => (ar, u, p, sr, c))
              (left_join (filter (edge_between sr ar) (connections db))))
          (left_join (filter (fun sr => Nat.eqb (sr_id sr) (ar_request_id ar))
                             (service_requests db))))
        (left_join (filter (fun p => Nat.eqb (pr_user_id p) (responding_user_id ar))
                           (profiles db))))
      (filter (fun u => Nat.eqb (u_id u) (responding_user_id ar)) (users db)))
    (agent_responses db).

Definition ranked_where (p_request_id : uuid) (j : joined_row) : bool :=
  let '(ar, _, _, _, _) := j in
  Nat.eqb (ar_request_id ar) p_request_id && ar_is_match ar.

Definition trust_of (c : option connection) : Q :=
  coalesce (bind_opt c c_trust_score) 1%Q.

Definition ranked_select (j : joined_row) : ranked_match :=
  let '(ar, u, p, _, c) := j in
  {| rm_user_id := responding_user_id ar;
     rm_name := u_name u;
     rm_title := bind_opt p title;
     rm_match_score := ar_match_score ar;
     rm_matched_skills := ar_matched_skills ar;
     rm_explanation := match_explanation ar;
     rm_trust_score := trust_of c;
     rm_final_score := weighted (ar_match_score ar) (trust_of c) |}.

(** The rows that enter the aggregate, before ORDER BY. *)
Definition ranked_rows (db : database) (p_request_id : uuid) : list ranked_match :=
  map ranked_select (filter (ranked_where p_request_id) (ranked_from db)).

(** [x] may stand before [y] under ORDER BY ... DESC (NULLs first). *)
Definition desc_before (x y : option Q) : bool :=
  match x, y with
  | None, _ => true
  | Some _, None => false
  | Some a, Some b => Qle_bool b a
  end.

Definition rank_before (r1 r2 : ranked_match) : Prop :=
  desc_before (rm_final_score r1) (rm_final_score r2) = true.

(** What ORDER BY allows: any arrangement of the rows that is descending in
    the sort key.  Rows with equal keys may come in either order. *)
Definition order_by_desc (rows out : list ranked_match) : Prop :=
  Permutation rows out /\ StronglySorted rank_before out.

(** Every value [get_ranked_results] may return on a database. *)
Definition ranked_results (db : database) (p_request_id : uuid)
    (result : option (list ranked_match)) : Prop :=
  exists out, order_by_desc (ranked_rows db p_request_id) out /\ result = sql_agg out.

(** One execution: rows taken in heap order and sorted by insertion, a row
    going before the rows it ties with. *)
Fixpoint insert_desc (r : ranked_match) (l : list ranked_match) : list ranked_match :=
  match l with
  | [] => [r]
  | x :: t =>
      if desc_before (rm_final_score r) (rm_final_score x) then r :: x :: t
      else x :: insert_desc r t
  end.

Definition sort_desc (l : list ranked_match) : list ranked_match :=
  fold_right insert_desc [] l.

Definition get_ranked_results (db : database) (p_request_id : uuid)
  : option (list ranked_match) :=
  sql_agg (sort_desc (ranked_rows db p_request_id)).

(** ** The schema's sample data and its example workflow *)

Definition alice : uuid := 11%nat.
Definition bob : uuid := 12%nat.
Definition carol : uuid := 13%nat.
Definition d_request : uuid := 14%nat.

Definition sample_db : database :=
  {| users :=
       [mk_user alice "alice@example.com" "Alice Designer";
        mk_user bob "bob@example.com" "Bob Developer";
        mk_user carol "carol@example.com" "Carol Product Manager"];
     profiles :=
       [mk_profile alice (Some "Senior UX Designer")
          ["UI/UX Design"; "Figma"; "Design Systems"; "User Research"];
        mk_profile bob (Some "Full-Stack Developer")
          ["React"; "Node.js"; "PostgreSQL"; "TypeScript"];
        mk_profile carol (Some "Product Manager")
          ["Product Strategy"; "User Research"; "Agile"; "Roadmapping"]];
     connections :=
       [mk_connection alice bob (Some (9 # 10));
        mk_connection bob carol (Some (85 # 100));
        mk_connection alice carol (Some (95 # 100))];
     service_requests := [];
     agent_responses := [];
     agent_messages := [];
     uuid_seq := 100 |}.

(** Step 1 of the workflow: Bob asks for a designer. *)
Definition workflow_db : database :=
  {| users := users sample_db;
     profiles := profiles sample_db;
     connections := connections sample_db;
     service_requests :=
       [mk_service_request d_request bob
          "Looking for a designer with Figma experience"
          (Some ["UI/UX Design"; "Figma"]) active];
     agent_responses := [];
     agent_messages := [];
     uuid_seq := 100 |}.

(** Requests and responses used as concrete inputs below. *)

(** The specification's first example: two required skills, both held. *)
Definition figma_criteria : option (list string) := Some ["Figma"; "UI/UX Design"].
Definition figma_profile : option (list string) :=
  Some ["UI/UX Design"; "Figma"; "Design Systems"].

(** A profile that lists one skill twice. *)
Definition doubled_profile : option (list string) := Some ["Figma"; "Figma"].

(** ** Constraints of the schema, as predicates on a database *)

(** UNIQUE(request_id, responding_user_id) on [agent_responses]. *)
Definition unique_response_keys (db : database) : Prop :=
  NoDup (map (fun ar => (ar_request_id ar, responding_user_id ar)) (agent_responses db)).

(** PRIMARY KEY of [service_requests]. *)
Definition unique_request_ids (db : database) : Prop :=
  NoDup (map sr_id (service_requests db)).

(** [c] is an edge between [a] and [b], in either storage order. *)
Definition links (c : connection) (a b : uuid) : Prop :=
  (user_a_id c = a /\ user_b_id c = b) \/ (user_b_id c = a /\ user_a_id c = b).

(** No two different rows share a sort key. *)
Definition tie_free (rows : list ranked_match) : Prop :=
  forall x y, In x rows -> In y rows -> rank_before x y -> rank_before y x -> x = y.

(** Alice and Carol both answer Bob's request with half of the skills, over
    connections of equal trust. *)
Definition tie_db : database :=
  {| users := users sample_db;
     profiles := profiles sample_db;
     connections :=
       [mk_connection alice bob (Some (9 # 10));
        mk_connection bob carol (Some (9 # 10))];
     service_requests := service_requests workflow_db;
     agent_responses :=
       [mk_agent_response 102 d_request alice true (Some (1 # 2))
          (Some "Matched 1 of 2 required skills") (Some ["Figma"]);
        mk_agent_response 104 d_request carol true (Some (1 # 2))
          (Some "Matched 1 of 2 required skills") (Some ["UI/UX Design"])];
     agent_messages := [];
     uuid_seq := 106 |}.

Definition alice_row : ranked_match :=
  mk_ranked_match alice "Alice Designer" (Some "Senior UX Designer") (Some (1 # 2))
    (Some ["Figma"]) (Some "Matched 1 of 2 required skills") (9 # 10)
    (Some ((1 # 2) * (7 # 10) + (9 # 10) * (3 # 10))%Q).

Definition carol_row : ranked_match :=
  mk_ranked_match carol "Carol Product Manager" (Some "Product Manager") (Some (1 # 2))
    (Some ["UI/UX Design"]) (Some "Matched 1 of 2 required skills") (9 # 10)
    (Some ((1 # 2) * (7 # 10) + (9 # 10) * (3 # 10))%Q).

(** The example workflow after steps 2 to 4: Alice matches, Carol does not. *)
Definition answered_db : database :=
  let s1 := commit workflow_db (broadcast_request workflow_db bob d_request) in
  let s2 := commit s1 (record_agent_response s1 d_request alice
                         (evaluate_match s1 d_request alice)) in
  commit s2 (record_agent_response s2 d_request carol
               (evaluate_match s2 d_request carol)).

Definition workflow_request : service_request :=
  mk_service_request d_request bob "Looking for a designer with Figma experience"
    (Some ["UI/UX Design"; "Figma"]) active.

(** Alice's row in the ranking of the example workflow. *)
Definition answered_alice_row : ranked_match :=
  mk_ranked_match alice "Alice Designer" (Some "Senior UX Designer") (Some (2 # 2))
    (Some ["UI/UX Design"; "Figma"]) (Some "Matched 2 of 2 required skills") (9 # 10)
    (Some (1940 # 2000)).

(** The example workflow when only Carol, who does not match, has answered. *)
Definition declined_db : database :=
  let s1 := commit workflow_db (broadcast_request workflow_db bob d_request) in
  commit s1 (record_agent_response s1 d_request carol
               (evaluate_match s1 d_request carol)).

(** The same database with the status column rewritten by [f]. *)
Definition with_status (f : service_request -> request_status) (db : database)
  : database :=
  {| users := users db;
     profiles := profiles db;
     connections := connections db;
     service_requests :=
       map (fun sr => mk_service_request (sr_id sr) (requesting_user_id sr)
                        (query_text sr) (sq_skills sr) (f sr))
           (service_requests db);
     agent_responses := agent_responses db;
     agent_messages := agent_messages db;
     uuid_seq := uuid_seq db |}.

Definition map_outcome {A : Type} (g : database -> database) (o : outcome A)
  : outcome A :=
  match o with Ok v db' => Ok v (g db') | Raise e => Raise e end.

(** Bob's request after it was completed. *)
Definition closed_db : database := with_status (fun _ => completed) workflow_db.

(** Dave has an account and a request, and no connection. *)
Definition dave : uuid := 15.
Definition dave_request : uuid := 16.

Definition lonely_db : database :=
  {| users := users sample_db ++ [mk_user dave "dave@example.com" "Dave Newcomer"];
     profiles := profiles sample_db;
     connections := connections sample_db;
     service_requests :=
       [mk_service_request dave_request dave "Looking for a React developer"
          (Some ["React"]) active];
     agent_responses := [];
     agent_messages := [];
     uuid_seq := 100 |}.

(** The example workflow when Alice's answer is the first thing recorded. *)
Definition recorded_db : database :=
  commit workflow_db
    (record_agent_response workflow_db d_request alice
       (evaluate_match workflow_db d_request alice)).

(** The [broadcast_to] key of a returned object; [None] when the call raised. *)
Definition broadcast_to_of (o : outcome broadcast_result) : option (option nat) :=
  match o with Ok v _ => Some (broadcast_to v) | Raise _ => None end.

(** ** Further constraints of the schema *)

(** PRIMARY KEY of [users]. *)
Definition unique_user_ids (db : database) : Prop :=
  NoDup (map u_id (users db)).

(** UNIQUE(user_id) on [profiles]. *)
Definition unique_profile_users (db : database) : Prop :=
  NoDup (map pr_user_id (profiles db)).

(** The key of [idx_unique_connection]: (LEAST, GREATEST) of the endpoints. *)
Definition pair_key (a b : uuid) : uuid * uuid := (Nat.min a b, Nat.max a b).

Definition unique_connection_pairs (db : database) : Prop :=
  NoDup (map (fun c => pair_key (user_a_id c) (user_b_id c)) (connections db)).

(** CHECK (user_a_id != user_b_id). *)
Definition no_self_connection (db : database) : Prop :=
  forall c, In c (connections db) -> user_a_id c <> user_b_id c.

(** The foreign keys of [connections], [service_requests] and
    [agent_responses] into [users] and [service_requests]. *)
Definition connections_reference_users (db : database) : Prop :=
  forall c, In c (connections db) ->
    user_exists db (user_a_id c) = true /\ user_exists db (user_b_id c) = true.

Definition requests_reference_users (db : database) : Prop :=
  forall sr, In sr (service_requests db) ->
    user_exists db (requesting_user_id sr) = true.

Definition responses_reference (db : database) : Prop :=
  forall ar, In ar (agent_responses db) ->
    request_exists db (ar_request_id ar) = true
    /\ user_exists db (responding_user_id ar) = true.

(** The columns of a message without its generated id. *)
Definition message_content (m : agent_message) : message_values :=
  mk_message_values (from_user_id m) (to_user_id m) (m_type m) (m_payload m)
    (m_request_id m).

(** The WHERE clause of [get_ranked_results] on a response row. *)
Definition matching_response (p_request_id : uuid) (ar : agent_response) : bool :=
  Nat.eqb (ar_request_id ar) p_request_id && ar_is_match ar.

(** The foreign keys of one row of [agent_messages]. *)
Definition message_fk_ok (db : database) (v : message_values) : bool :=
  user_exists db (v_from v) && fk_opt (user_exists db) (v_to v)
  && fk_opt (request_exists db) (v_request v).

(** The row [broadcast_request] logs for one connected user. *)
Definition broadcast_message (p_requesting_user_id p_request_id u : uuid)
  : message_values :=
  mk_message_values p_requesting_user_id (Some u) query_broadcast
    (payload_request p_request_id) (Some p_request_id).

(** Two databases with the same tables apart from the message log. *)
Definition same_but_messages (db db' : database) : Prop :=
  users db' = users db /\ profiles db' = profiles db
  /\ connections db' = connections db
  /\ service_requests db' = service_requests db
  /\ agent_responses db' = agent_responses db.

(** Alice is not the owner of Bob's request. *)
Definition request_owner_differs : Prop :=
  option_map requesting_user_id (find_request workflow_db d_request) = Some bob.

(** The rows the FROM clause of [get_ranked_results] makes of one response. *)
Definition joined_for (db : database) (ar : agent_response) : list joined_row :=
  flat_map (fun u =>
    flat_map (fun p =>
      flat_map (fun sr =>
        map (fun c => (ar, u, p, sr, c))
            (left_join (filter (edge_between sr ar) (connections db))))
        (left_join (filter (fun sr => Nat.eqb (sr_id sr) (ar_request_id ar))
                           (service_requests db))))
      (left_join (filter (fun p => Nat.eqb (pr_user_id p) (responding_user_id ar))
                         (profiles db))))
    (filter (fun u => Nat.eqb (u_id u) (responding_user_id ar)) (users db)).

(** The response row a successful [record_agent_response] stores. *)
Definition recorded_row (id rid uid : uuid) (m : bool) (ev : match_evaluation)
  : agent_response :=
  mk_agent_response id rid uid m (ev_match_score ev) (ev_explanation ev)
    (ev_matched_skills ev).

(** ** get_user_profile *)

(** The ["profile"] object of the result; its keys [bio], [experience_years],
    [availability] and [location] follow the columns the model leaves out. *)
Record profile_object := mk_profile_object {
  po_title : option string;
  po_skills : option (list string)
}.

Record user_profile := mk_user_profile {
  up_user_id : uuid;
  up_name : string;
  up_email : string;
  up_profile : profile_object
}.

(** FROM users u LEFT JOIN profiles p ON u.id = p.user_id. *)
Definition user_profile_from (db : database) : list (user * option profile) :=
  flat_map (fun u =>
    map (fun p => (u, p))
        (left_join (filter (fun p => Nat.eqb (u_id u) (pr_user_id p)) (profiles db))))
    (users db).

Definition user_profile_select (j : user * option profile) : user_profile :=
  let '(u, p) := j in
  mk_user_profile (u_id u) (u_name u) (u_email u)
    (mk_profile_object (bind_opt p title) (option_map skills p)).

(** SELECT ... INTO result: the first row, or NULL when there is none. *)
Definition get_user_profile (db : database) (p_user_id : uuid) : option user_profile :=
  hd_error
    (map user_profile_select
         (filter (fun j => Nat.eqb (u_id (fst j)) p_user_id) (user_profile_from db))).

(** ** INSERT INTO connections *)

(** The errors of the table's constraints: the CHECK [no_self_connection],
    the unique index [idx_unique_connection], the foreign keys to [users]. *)
Inductive connection_error :=
| check_violation
| pair_unique_violation
| endpoint_foreign_key_violation.

Definition same_endpoints (a b : uuid) (c : connection) : bool :=
  Nat.eqb (Nat.min (user_a_id c) (user_b_id c)) (Nat.min a b)
  && Nat.eqb (Nat.max (user_a_id c) (user_b_id c)) (Nat.max a b).

(** INSERT INTO connections (user_a_id, user_b_id, trust_score) VALUES
    (a, b, trust): the CHECK first, then the unique index, then the foreign
    keys. *)
Definition insert_connection (db : database) (a b : uuid) (trust : option Q)
  : connection_error + database :=
  if Nat.eqb a b then inl check_violation
  else if existsb (same_endpoints a b) (connections db) then inl pair_unique_violation
  else if user_exists db a && user_exists db b then
    inr {| users := users db;
           profiles := profiles db;
           connections := connections db ++ [mk_connection a b trust];
           service_requests := service_requests db;
           agent_responses := agent_responses db;
           agent_messages := agent_messages db;
           uuid_seq := S (uuid_seq db) |}
  else inl endpoint_foreign_key_violation.

(** ** Foreign keys of the message log *)

Definition messages_reference (db : database) : Prop :=
  forall m, In m (agent_messages db) -> message_fk_ok db (message_content m) = true.

(** ** The profile progress indicator of the web client *)

(** A value found under a key of the profile object: missing, null, an
    array, or anything else (a string, a number, an object). *)
Inductive profile_value :=
| pv_undefined
| pv_null
| pv_array (items : list string)
| pv_other.

Inductive profile_field :=
| f_title | f_skills | f_experience_years | f_availability | f_location | f_bio.

Definition fields : list profile_field :=
  [f_title; f_skills; f_experience_years; f_availability; f_location; f_bio].

(** [val !== null && val !== undefined && (Array.isArray(val) ? val.length > 0 : true)] *)
Definition isComplete (val : profile_value) : bool :=
  match val with
  | pv_undefined | pv_null => false
  | pv_array items => Nat.ltb 0 (List.length items)
  | pv_other => true
  end.

Definition completedCount (profile : profile_field -> profile_value) : nat :=
  List.length (filter (fun f => isComplete (profile f)) fields).

(** [Math.round]: the nearest integer, halves upwards. *)
Definition Math_round (x : Q) : Z := Qfloor (x + (1 # 2)).

(** [Math.round((completedCount / fields.length) * 100)] *)
Definition percentage (profile : profile_field -> profile_value) : Z :=
  Math_round (float_of_nat (completedCount profile)
              / float_of_nat (List.length fields) * 100).

(** A profile with a title and an empty skills array only. *)
Definition sparse_profile (f : profile_field) : profile_value :=
  match f with
  | f_title => pv_other
  | f_skills => pv_array []
  | _ => pv_undefined
  end.

(** ** search_profiles *)

Record search_hit := mk_search_hit {
  sh_user_id : uuid;
  sh_name : string;
  sh_title : option string;
  sh_skills : list string;
  similarity_score : Q
}.

(** [skills ?| array(...)]: some string of [wanted] is an element of
    [skills]. *)
Definition jsonb_exists_any (skills wanted : list string) : bool :=
  existsb (fun w => sql_in w skills) wanted.

(** FROM profiles p JOIN users u ON u.id = p.user_id. *)
Definition search_from (db : database) : list (profile * user) :=
  flat_map (fun p =>
    map (fun u => (p, u))
        (filter (fun u => Nat.eqb (u_id u) (pr_user_id p)) (users db)))
    (profiles db).

(** LIMIT: NULL sets no limit, a negative count raises an error ([None]). *)
Definition sql_limit {A : Type} (p_limit : option Z) (l : list A) : option (list A) :=
  match p_limit with
  | None => Some l
  | Some z => if (z <? 0)%Z then None else Some (firstn (Z.to_nat z) l)
  end.

Section Search.

(** The [embedding] column of [profiles], which the record leaves out, and
    the distance operator [<=>] of the vector extension, here exact. *)
Variable vector : Type.
Variable embedding : profile -> option vector.
Variable cosine_distance : vector -> vector -> Q.

Definition search_where (p_skills : option (list string)) (j : profile * user) : bool :=
  match embedding (fst j) with
  | None => false
  | Some _ =>
      match p_skills with
      | None => true
      | Some wanted => jsonb_exists_any (skills (fst j)) wanted
      end
  end.

(** A selected row with its sort key [p.embedding <=> p_query_embedding]. *)
Definition search_select (p_query_embedding : vector) (j : profile * user)
  : list (Q * search_hit) :=
  match embedding (fst j) with
  | None => []
  | Some e =>
      let d := cosine_distance e p_query_embedding in
      [(d, mk_search_hit (u_id (snd j)) (u_name (snd j)) (title (fst j))
             (skills (fst j)) (1 - d)%Q)]
  end.

Definition search_rows (db : database) (p_query_embedding : vector)
    (p_skills : option (list string)) : list (Q * search_hit) :=
  flat_map (search_select p_query_embedding)
           (filter (search_where p_skills) (search_from db)).

(** What the query allows.  The ORDER BY on the distance is answered
    through the [ivfflat] index of the schema, which searches approximately
    and may leave out rows that qualify.  A result is made of the first
    rows, up to the limit, of an arrangement ascending in the distance of
    some of the qualifying rows; [missed] are the rows left out. *)
Definition search_allowed (db : database) (p_query_embedding : vector)
    (p_skills : option (list string)) (p_limit : option Z) (out : list search_hit)
  : Prop :=
  exists sorted missed,
    Permutation (search_rows db p_query_embedding p_skills) (sorted ++ missed)
    /\ StronglySorted (fun a b => (fst a <= fst b)%Q) sorted
    /\ sql_limit p_limit (map snd sorted) = Some out.

End Search.

(** Embeddings on a line for the sample profiles; Carol has none. *)
Definition sample_embedding (p : profile) : option Q :=
  if Nat.eqb (pr_user_id p) alice then Some (1 # 10)
  else if Nat.eqb (pr_user_id p) bob then Some (6 # 10)
  else None.

Definition sample_distance (a b : Q) : Q := Qabs (a - b).

(** Alice and Bob as hits of a search near 0.5 on the sample embeddings. *)
Definition alice_hit : search_hit :=
  mk_search_hit alice "Alice Designer" (Some "Senior UX Designer")
    ["UI/UX Design"; "Figma"; "Design Systems"; "User Research"]
    (1 - sample_distance (1 # 10) (5 # 10))%Q.

Definition bob_hit : search_hit :=
  mk_search_hit bob "Bob Developer" (Some "Full-Stack Developer")
    ["React"; "Node.js"; "PostgreSQL"; "TypeScript"]
    (1 - sample_distance (6 # 10) (5 # 10))%Q.

(** Carol and Alice answer Bob's request with different scores; Carol's
    response is stored first. *)
Definition scored_db : database :=
  {| users := users sample_db;
     profiles := profiles sample_db;
     connections := connections sample_db;
     service_requests := service_requests workflow_db;
     agent_responses :=
       [mk_agent_response 102 d_request carol true (Some (1 # 2))
          (Some "Matched 1 of 2 required skills") (Some ["UI/UX Design"]);
        mk_agent_response 104 d_request alice true (Some (2 # 2))
          (Some "Matched 2 of 2 required skills") (Some ["UI/UX Design"; "Figma"])];
     agent_messages := [];
     uuid_seq := 106 |}.

Definition scored_alice_row : ranked_match :=
  mk_ranked_match alice "Alice Designer" (Some "Senior UX Designer") (Some (2 # 2))
    (Some ["UI/UX Design"; "Figma"]) (Some "Matched 2 of 2 required skills") (9 # 10)
    (Some ((2 # 2) * (7 # 10) + (9 # 10) * (3 # 10))%Q).

Definition scored_carol_row : ranked_match :=
  mk_ranked_match carol "Carol Product Manager" (Some "Product Manager") (Some (1 # 2))
    (Some ["UI/UX Design"]) (Some "Matched 1 of 2 required skills") (85 # 100)
    (Some ((1 # 2) * (7 # 10) + (85 # 100) * (3 # 10))%Q).

(** * Properties *)

(** ** Primitives *)

Lemma sql_in_In (s : string) (l : list string) : sql_in s l = true <-> In s l.
Proof.
  unfold sql_in. rewrite existsb_exists. split.
  - intros [x [Hin Heq]]. apply String.eqb_eq in Heq. now subst.
  - intros Hin. exists s. split; [assumption | apply String.eqb_refl].
Qed.

Lemma sql_agg_coalesce {A : Type} (l : list A) : coalesce (sql_agg l) [] = l.
Proof. now destruct l. Qed.

Lemma float_of_nat_nonneg (n : nat) : (0 <= float_of_nat n)%Q.
Proof.
  unfold float_of_nat. change 0%Q with (inject_Z 0). rewrite <- Zle_Qle. lia.
Qed.

Lemma float_of_nat_pos (n : nat) : (0 < n)%nat -> (0 < float_of_nat n)%Q.
Proof.
  intros H. unfold float_of_nat. change 0%Q with (inject_Z 0).
  rewrite <- Zlt_Qlt. lia.
Qed.

Lemma float_of_nat_le (a b : nat) : (a <= b)%nat -> (float_of_nat a <= float_of_nat b)%Q.
Proof. intros H. unfold float_of_nat. rewrite <- Zle_Qle. lia. Qed.

Lemma greatest_1_length (a : option (list string)) :
  greatest_1 (jsonb_array_length a)
  = Nat.max (List.length (jsonb_array_elements_text a)) 1.
Proof. destruct a; reflexivity. Qed.

(** ** evaluate_match *)

Section Evaluate.

Variables request_skills profile_skills : option (list string).

Lemma evaluate_none :
  common_skills request_skills profile_skills = [] ->
  evaluate request_skills profile_skills
  = mk_match_evaluation (Some false) (Some 0%Q) (Some [])
      (Some "No matching skills found").
Proof.
  unfold evaluate. intros H. rewrite H. reflexivity.
Qed.

Lemma evaluate_some :
  common_skills request_skills profile_skills <> [] ->
  evaluate request_skills profile_skills
  = let common := common_skills request_skills profile_skills in
    let match_score :=
      (float_of_nat (List.length common)
       / float_of_nat
           (Nat.max (List.length (jsonb_array_elements_text request_skills)) 1))%Q in
    mk_match_evaluation (Some (Qle_bool match_threshold match_score))
      (Some match_score) (Some common)
      (Some ("Matched " ++ text_of_nat (List.length common) ++ " of "
             ++ text_of_nat (List.length (jsonb_array_elements_text request_skills))
             ++ " required skills")%string).
Proof.
  unfold evaluate. intros H.
  destruct (common_skills request_skills profile_skills) as [|s m] eqn:E;
    [congruence|].
  cbn [sql_agg jsonb_array_length option_map coalesce].
  rewrite greatest_1_length.
  destruct request_skills as [l|]; [reflexivity|].
  unfold common_skills in E. simpl in E. exfalso.
  assert (Hs : In s (s :: m)) by now left.
  rewrite <- E in Hs. apply filter_In in Hs. destruct Hs as [_ Hs].
  discriminate Hs.
Qed.

Lemma matchedSkills_evaluate :
  matchedSkills (evaluate request_skills profile_skills)
  = common_skills request_skills profile_skills.
Proof.
  destruct (common_skills request_skills profile_skills) as [|s m] eqn:E.
  - now rewrite (evaluate_none E).
  - rewrite evaluate_some by (rewrite E; discriminate). now rewrite E.
Qed.

Lemma score_evaluate :
  (score (evaluate request_skills profile_skills)
   == float_of_nat (List.length (common_skills request_skills profile_skills))
      / float_of_nat
          (Nat.max (List.length (jsonb_array_elements_text request_skills)) 1))%Q.
Proof.
  destruct (common_skills request_skills profile_skills) as [|s m] eqn:E.
  - rewrite (evaluate_none E). simpl. unfold Qdiv. now rewrite Qmult_0_l.
  - rewrite evaluate_some by (rewrite E; discriminate). rewrite E. reflexivity.
Qed.

Lemma is_match_evaluate :
  is_match (evaluate request_skills profile_skills)
  = Qle_bool match_threshold (score (evaluate request_skills profile_skills)).
Proof.
  destruct (common_skills request_skills profile_skills) as [|s m] eqn:E.
  - now rewrite (evaluate_none E).
  - rewrite evaluate_some by (rewrite E; discriminate). reflexivity.
Qed.

Lemma common_skills_In (s : string) :
  In s (common_skills request_skills profile_skills)
  <-> In s (jsonb_array_elements_text request_skills)
      /\ In s (jsonb_array_elements_text profile_skills).
Proof.
  unfold common_skills. rewrite filter_In, sql_in_In. tauto.
Qed.

Lemma common_skills_NoDup :
  NoDup (jsonb_array_elements_text profile_skills) ->
  NoDup (common_skills request_skills profile_skills).
Proof. apply NoDup_filter. Qed.

Lemma common_skills_length :
  NoDup (jsonb_array_elements_text profile_skills) ->
  (List.length (common_skills request_skills profile_skills)
   <= List.length (jsonb_array_elements_text request_skills))%nat.
Proof.
  intros H. apply NoDup_incl_length; [now apply common_skills_NoDup|].
  intros s Hs. now apply common_skills_In in Hs.
Qed.

End Evaluate.

(** C1. [evaluate_match] reports exactly the skills that are both required
    and held (compared as exact strings); its score is the number of
    reported skills over the number of required skills, the divisor being
    at least 1; the verdict is [score >= 0.3]; with no required skill the
    score is 0 and the verdict is negative.  Sizes are those of the stored
    arrays; when the profile lists no skill twice the reported skills
    contain no repetition either. *)
Theorem evaluate_match_formula (request_skills profile_skills : option (list string)) :
  let e := evaluate request_skills profile_skills in
  let required := jsonb_array_elements_text request_skills in
  let held := jsonb_array_elements_text profile_skills in
  (forall s, In s (matchedSkills e) <-> In s required /\ In s held)
  /\ (NoDup held -> NoDup (matchedSkills e))
  /\ (score e == float_of_nat (List.length (matchedSkills e))
               / float_of_nat (Nat.max (List.length required) 1))%Q
  /\ is_match e = Qle_bool (3 # 10) (score e)
  /\ (required = [] -> (score e == 0)%Q /\ is_match e = false).
Proof.
  cbv zeta. rewrite matchedSkills_evaluate.
  split; [intros s; apply common_skills_In|].
  split; [apply common_skills_NoDup|].
  split; [apply score_evaluate|].
  split; [apply is_match_evaluate|].
  intros Hreq.
  assert (E : evaluate request_skills profile_skills
              = mk_match_evaluation (Some false) (Some 0%Q) (Some [])
                  (Some "No matching skills found")).
  { apply evaluate_none. unfold common_skills. rewrite Hreq.
    induction (jsonb_array_elements_text profile_skills); simpl; auto. }
  rewrite E. split; reflexivity.
Qed.

Lemma evaluate_match_formula_witness :
  NoDup (matchedSkills (evaluate figma_criteria figma_profile))
  /\ ((score (evaluate (Some []) figma_profile) == 0)%Q
      /\ is_match (evaluate (Some []) figma_profile) = false).
Proof.
  split.
  - apply (evaluate_match_formula figma_criteria figma_profile).
    repeat constructor; simpl; intuition discriminate.
  - apply (evaluate_match_formula (Some []) figma_profile). reflexivity.
Defined.

(** On the stored tables [evaluate_match] is [evaluate] at the request's and
    the profile's arrays: Alice against Bob's request. *)
Example evaluate_match_alice :
  evaluate_match workflow_db d_request alice
  = mk_match_evaluation (Some true) (Some (2 # 2)) (Some ["UI/UX Design"; "Figma"])
      (Some "Matched 2 of 2 required skills").
Proof. reflexivity. Qed.

(** C9 as the specification words it does not hold: the template has no
    final period, and a candidate with no required skill gets another text. *)
Lemma explanation_not_templated :
  explanation (evaluate figma_criteria figma_profile)
    <> "Matched 2 of 2 required skills."
  /\ explanation (evaluate figma_criteria (Some ["React"]))
    <> "Matched 0 of 2 required skills.".
Proof.
  split; intros H; vm_compute in H; discriminate H.
Qed.

(** C9, amended.  The explanation is ["Matched N of M required skills"],
    without a final period, N and M being the numbers of reported and of
    required skills, when at least one skill is reported, and
    ["No matching skills found"] when none is. *)
Theorem explanation_template (request_skills profile_skills : option (list string)) :
  let e := evaluate request_skills profile_skills in
  explanation e
  = match matchedSkills e with
    | [] => "No matching skills found"
    | _ :: _ =>
        ("Matched " ++ text_of_nat (List.length (matchedSkills e)) ++ " of "
         ++ text_of_nat (List.length (jsonb_array_elements_text request_skills))
         ++ " required skills")%string
    end.
Proof.
  cbv zeta. rewrite matchedSkills_evaluate.
  destruct (common_skills request_skills profile_skills) as [|s m] eqn:E.
  - now rewrite (evaluate_none _ _ E).
  - rewrite evaluate_some by (rewrite E; discriminate). rewrite E. reflexivity.
Qed.

Example explanation_two_of_two :
  explanation (evaluate figma_criteria figma_profile) = "Matched 2 of 2 required skills".
Proof. reflexivity. Qed.

(** C10. The score counts every entry of the profile's skill list that is a
    required skill.  It is never negative; it is at most 1 when the profile
    lists no skill twice; a profile that repeats a required skill can score
    more than 1. *)
Theorem match_score_range :
  (forall request_skills profile_skills : option (list string),
     let e := evaluate request_skills profile_skills in
     let required := jsonb_array_elements_text request_skills in
     let held := jsonb_array_elements_text profile_skills in
     (score e == float_of_nat (List.length (filter (fun s => sql_in s required) held))
                 / float_of_nat (Nat.max (List.length required) 1))%Q
     /\ (0 <= score e)%Q
     /\ (NoDup held -> (score e <= 1)%Q))
  /\ (exists request_skills profile_skills : option (list string),
        ~ NoDup (jsonb_array_elements_text profile_skills)
        /\ (1 < score (evaluate request_skills profile_skills))%Q).
Proof.
  split.
  - intros request_skills profile_skills. cbv zeta.
    pose proof (score_evaluate request_skills profile_skills) as Hs.
    assert (Hpos : (0 < float_of_nat
                          (Nat.max (List.length (jsonb_array_elements_text request_skills)) 1))%Q)
      by (apply float_of_nat_pos; lia).
    split; [exact Hs|]. split.
    + rewrite Hs. apply Qle_shift_div_l; [exact Hpos|].
      rewrite Qmult_0_l. apply float_of_nat_nonneg.
    + intros Hnd. rewrite Hs. apply Qle_shift_div_r; [exact Hpos|].
      rewrite Qmult_1_l. apply float_of_nat_le.
      pose proof (common_skills_length request_skills profile_skills Hnd). lia.
  - exists (Some ["Figma"]), doubled_profile. split.
    + simpl. intros H. inversion H as [|x l Hin _]. apply Hin. now left.
    + reflexivity.
Qed.

Lemma match_score_range_witness :
  (score (evaluate figma_criteria figma_profile) <= 1)%Q.
Proof.
  apply (proj1 match_score_range figma_criteria figma_profile).
  repeat constructor; simpl; intuition discriminate.
Defined.

Example doubled_profile_scores_two :
  evaluate (Some ["Figma"]) doubled_profile
  = mk_match_evaluation (Some true) (Some (2 # 1)) (Some ["Figma"; "Figma"])
      (Some "Matched 2 of 1 required skills").
Proof. reflexivity. Qed.

(** ** Joins and ordering *)

Lemma left_join_In {A : Type} (f : A -> bool) (l : list A) (o : option A) :
  In o (left_join (filter f l))
  <-> match o with
      | Some x => In x l /\ f x = true
      | None => forall x, In x l -> f x = false
      end.
Proof.
  unfold left_join. destruct (filter f l) as [|a m] eqn:E.
  - destruct o as [x|]; simpl.
    + split; [intros [H|[]]; discriminate H|].
      intros H. apply filter_In in H. rewrite E in H. destruct H.
    + split; [|auto]. intros _ x Hx.
      destruct (f x) eqn:Hf; [|reflexivity].
      assert (Hin : In x (filter f l)) by (apply filter_In; auto).
      rewrite E in Hin. destruct Hin.
  - rewrite <- E. destruct o as [x|].
    + rewrite in_map_iff. split.
      * intros [y [Hy Hin]]. injection Hy as ->. now apply filter_In.
      * intros H. exists x. split; [reflexivity | now apply filter_In].
    + split.
      * intros H. apply in_map_iff in H. destruct H as [y [Hy _]]. discriminate Hy.
      * intros H. exfalso.
        assert (Hin : In a (filter f l)) by (rewrite E; now left).
        apply filter_In in Hin. destruct Hin as [Hin Hf].
        rewrite (H a Hin) in Hf. discriminate Hf.
Qed.

(** Where a row of the aggregate comes from. *)
Lemma ranked_rows_In (db : database) (rid : uuid) (r : ranked_match) :
  In r (ranked_rows db rid)
  <-> exists ar u p sr c,
        In ar (agent_responses db)
        /\ (In u (users db) /\ Nat.eqb (u_id u) (responding_user_id ar) = true)
        /\ In p (left_join (filter (fun p => Nat.eqb (pr_user_id p) (responding_user_id ar))
                                   (profiles db)))
        /\ In sr (left_join (filter (fun sr => Nat.eqb (sr_id sr) (ar_request_id ar))
                                    (service_requests db)))
        /\ In c (left_join (filter (edge_between sr ar) (connections db)))
        /\ ar_request_id ar = rid
        /\ ar_is_match ar = true
        /\ r = ranked_select (ar, u, p, sr, c).
Proof.
  unfold ranked_rows, ranked_from. rewrite in_map_iff. split.
  - intros [j [Hr Hj]]. apply filter_In in Hj. destruct Hj as [Hj Hw].
    apply in_flat_map in Hj. destruct Hj as [ar [Har Hj]].
    apply in_flat_map in Hj. destruct Hj as [u [Hu Hj]].
    apply in_flat_map in Hj. destruct Hj as [p [Hp Hj]].
    apply in_flat_map in Hj. destruct Hj as [sr [Hsr Hj]].
    apply in_map_iff in Hj. destruct Hj as [c [Hc Hin]].
    subst j. simpl in Hw. apply andb_true_iff in Hw. destruct Hw as [Hrid Hm].
    apply Nat.eqb_eq in Hrid. apply filter_In in Hu.
    exists ar, u, p, sr, c. repeat split; auto; tauto.
  - intros (ar & u & p & sr & c & Har & Hu & Hp & Hsr & Hc & Hrid & Hm & Hr).
    exists (ar, u, p, sr, c). split; [now symmetry|].
    apply filter_In. split.
    + apply in_flat_map. exists ar. split; [assumption|].
      apply in_flat_map. exists u. split; [now apply filter_In|].
      apply in_flat_map. exists p. split; [assumption|].
      apply in_flat_map. exists sr. split; [assumption|].
      apply in_map_iff. exists c. split; [reflexivity | assumption].
    + simpl. rewrite Hm, andb_true_r. now apply Nat.eqb_eq.
Qed.

Lemma desc_before_total (x y : option Q) :
  desc_before x y = true \/ desc_before y x = true.
Proof.
  destruct x as [a|], y as [b|]; simpl; auto.
  rewrite !Qle_bool_iff. destruct (Qlt_le_dec a b) as [H|H]; [right|left]; auto.
  now apply Qlt_le_weak.
Qed.

Lemma desc_before_trans (x y z : option Q) :
  desc_before x y = true -> desc_before y z = true -> desc_before x z = true.
Proof.
  destruct x as [a|], y as [b|], z as [c|]; simpl; auto; try discriminate.
  rewrite !Qle_bool_iff. intros H1 H2. now apply Qle_trans with b.
Qed.

Lemma insert_desc_perm (r : ranked_match) (l : list ranked_match) :
  Permutation (r :: l) (insert_desc r l).
Proof.
  induction l as [|x t IH]; simpl; [reflexivity|].
  destruct (desc_before _ _); [reflexivity|].
  rewrite perm_swap. now apply perm_skip.
Qed.

Lemma insert_desc_sorted (r : ranked_match) (l : list ranked_match) :
  StronglySorted rank_before l -> StronglySorted rank_before (insert_desc r l).
Proof.
  induction l as [|x t IH]; simpl; intros Hs.
  - repeat constructor.
  - destruct (desc_before (rm_final_score r) (rm_final_score x)) eqn:E.
    + constructor; [assumption|].
      constructor; [exact E|].
      inversion Hs as [|? ? _ Hall]; subst.
      eapply Forall_impl; [|exact Hall].
      intros y Hy. unfold rank_before in *. eapply desc_before_trans; eassumption.
    + inversion Hs as [|? ? Ht Hall]; subst.
      constructor; [now apply IH|].
      assert (Hxr : rank_before x r).
      { unfold rank_before.
        destruct (desc_before_total (rm_final_score x) (rm_final_score r)) as [H|H];
          [assumption | congruence]. }
      rewrite <- (insert_desc_perm r t). now constructor.
Qed.

Lemma sort_desc_perm (l : list ranked_match) : Permutation l (sort_desc l).
Proof.
  induction l as [|r t IH]; simpl; [reflexivity|].
  rewrite <- insert_desc_perm. now apply perm_skip.
Qed.

Lemma sort_desc_sorted (l : list ranked_match) : StronglySorted rank_before (sort_desc l).
Proof.
  induction l as [|r t IH]; simpl; [constructor | now apply insert_desc_sorted].
Qed.

(** The executable function returns one of the values the query allows:
    on every database [get_ranked_results] has a result. *)
Lemma get_ranked_results_allowed (db : database) (rid : uuid) :
  ranked_results db rid (get_ranked_results db rid).
Proof.
  exists (sort_desc (ranked_rows db rid)). split; [|reflexivity].
  split; [apply sort_desc_perm | apply sort_desc_sorted].
Qed.

Lemma ranked_results_Some (db : database) (rid : uuid) (out : list ranked_match) :
  ranked_results db rid (Some out) ->
  Permutation (ranked_rows db rid) out /\ StronglySorted rank_before out.
Proof.
  intros [o [[Hp Hs] Hr]]. destruct o; simpl in Hr; [discriminate Hr|].
  injection Hr as ->. auto.
Qed.

Lemma NoDup_map_eq {A B : Type} (f : A -> B) (l : list A) (x y : A) :
  NoDup (map f l) -> In x l -> In y l -> f x = f y -> x = y.
Proof.
  induction l as [|a t IH]; simpl; [tauto|].
  intros Hnd Hx Hy Hxy. inversion Hnd as [|? ? Hnot Hnd']; subst.
  destruct Hx as [->|Hx], Hy as [->|Hy]; auto.
  - exfalso. apply Hnot. rewrite Hxy. now apply in_map.
  - exfalso. apply Hnot. rewrite <- Hxy. now apply in_map.
Qed.

Lemma edge_between_links (sr : service_request) (ar : agent_response) (c : connection) :
  edge_between (Some sr) ar c = true
  <-> links c (requesting_user_id sr) (responding_user_id ar).
Proof.
  unfold edge_between, links.
  rewrite orb_true_iff, !andb_true_iff, !Nat.eqb_eq. reflexivity.
Qed.

(** ** get_ranked_results *)

(** C2. In every ranked result, the final score is
    [match_score * 0.7 + trust_score * 0.3], the trust score being the
    weight stored on a connection between the requester and the candidate
    (1.0 when that weight is NULL), and 1.0 when no connection joins them. *)
Theorem final_score_formula (db : database) (rid : uuid) (sr : service_request)
    (out : list ranked_match) (r : ranked_match) :
  unique_request_ids db ->
  In sr (service_requests db) -> sr_id sr = rid ->
  ranked_results db rid (Some out) -> In r out ->
  rm_final_score r
  = option_map (fun m => (m * (7 # 10) + rm_trust_score r * (3 # 10))%Q)
               (rm_match_score r)
  /\ (exists ar, In ar (agent_responses db)
                 /\ ar_request_id ar = rid
                 /\ responding_user_id ar = rm_user_id r
                 /\ ar_match_score ar = rm_match_score r)
  /\ ((exists c, In c (connections db)
                 /\ links c (requesting_user_id sr) (rm_user_id r)
                 /\ rm_trust_score r = coalesce (c_trust_score c) 1%Q)
      \/ ((forall c, In c (connections db) ->
                     ~ links c (requesting_user_id sr) (rm_user_id r))
          /\ rm_trust_score r = 1%Q)).
Proof.
  intros Hpk Hsr Hid Hres Hr.
  apply ranked_results_Some in Hres. destruct Hres as [Hperm _].
  apply (Permutation_in _ (Permutation_sym Hperm)) in Hr.
  apply ranked_rows_In in Hr.
  destruct Hr as (ar & u & p & sro & c & Har & _ & _ & Hsro & Hc & Hrid & _ & ->).
  split; [reflexivity|]. split; [exists ar; simpl; auto|].
  apply left_join_In in Hsro.
  assert (Hsame : sro = Some sr).
  { destruct sro as [sr'|].
    - destruct Hsro as [Hin' Heq]. apply Nat.eqb_eq in Heq. f_equal.
      apply (NoDup_map_eq sr_id (service_requests db)); auto. congruence.
    - specialize (Hsro sr Hsr). apply Nat.eqb_neq in Hsro. congruence. }
  subst sro. apply left_join_In in Hc. simpl. destruct c as [c|].
  - left. destruct Hc as [Hin Hedge]. exists c.
    split; [assumption|]. split; [now apply edge_between_links|]. reflexivity.
  - right. split; [|reflexivity]. intros c Hin Hl.
    apply edge_between_links in Hl. rewrite (Hc c Hin) in Hl. discriminate Hl.
Qed.

Lemma answered_db_ranking :
  ranked_results answered_db d_request (Some [answered_alice_row]).
Proof. exact (get_ranked_results_allowed answered_db d_request). Qed.

Lemma final_score_formula_witness :
  unique_request_ids answered_db
  /\ ranked_results answered_db d_request (Some [answered_alice_row])
  /\ rm_final_score answered_alice_row
     = option_map (fun m => (m * (7 # 10) + (9 # 10) * (3 # 10))%Q)
                  (rm_match_score answered_alice_row).
Proof.
  assert (Hpk : unique_request_ids answered_db)
    by (repeat constructor; simpl; tauto).
  split; [exact Hpk|]. split; [exact answered_db_ranking|].
  apply (final_score_formula answered_db d_request workflow_request
           [answered_alice_row] answered_alice_row Hpk).
  - left; reflexivity.
  - reflexivity.
  - exact answered_db_ranking.
  - left; reflexivity.
Defined.

(** The specification's ranking example: match scores 0.5 and 0.2 over
    trust 0.9 and 0.95 give final scores 0.62 and 0.425. *)
Example final_score_example :
  (coalesce (weighted (Some (5 # 10)) (9 # 10)) 0 == 62 # 100)%Q
  /\ (coalesce (weighted (Some (2 # 10)) (95 # 100)) 0 == 425 # 1000)%Q.
Proof. split; reflexivity. Qed.

(** C3. Every ranked result stands for a response recorded for this request
    with [is_match = TRUE], and a candidate whose response for this request
    has [is_match = FALSE] is in no ranked result. *)
Theorem ranked_only_matches (db : database) (rid : uuid) (out : list ranked_match) :
  unique_response_keys db ->
  ranked_results db rid (Some out) ->
  (forall r, In r out ->
     exists ar, In ar (agent_responses db)
                /\ ar_request_id ar = rid
                /\ responding_user_id ar = rm_user_id r
                /\ ar_is_match ar = true)
  /\ (forall ar, In ar (agent_responses db) -> ar_request_id ar = rid ->
        ar_is_match ar = false ->
        forall r, In r out -> rm_user_id r <> responding_user_id ar).
Proof.
  intros Huniq Hres. apply ranked_results_Some in Hres. destruct Hres as [Hperm _].
  assert (Hsel : forall r, In r out ->
            exists ar, In ar (agent_responses db)
                       /\ ar_request_id ar = rid
                       /\ responding_user_id ar = rm_user_id r
                       /\ ar_is_match ar = true).
  { intros r Hr. apply (Permutation_in _ (Permutation_sym Hperm)) in Hr.
    apply ranked_rows_In in Hr.
    destruct Hr as (ar & u & p & sr & c & Har & _ & _ & _ & _ & Hrid & Hm & ->).
    exists ar. simpl. auto. }
  split; [exact Hsel|].
  intros ar Har Hrid Hfalse r Hr Heq.
  destruct (Hsel r Hr) as (ar' & Har' & Hrid' & Hu' & Hm').
  assert (ar' = ar).
  { apply (NoDup_map_eq (fun a => (ar_request_id a, responding_user_id a))
             (agent_responses db)); auto. congruence. }
  subst ar'. congruence.
Qed.

Lemma ranked_only_matches_witness :
  unique_response_keys answered_db
  /\ (forall r, In r [answered_alice_row] -> rm_user_id r <> carol).
Proof.
  assert (Huniq : unique_response_keys answered_db).
  { unfold unique_response_keys. simpl.
    repeat constructor; simpl; intuition discriminate. }
  split; [exact Huniq|].
  destruct (ranked_only_matches answered_db d_request [answered_alice_row]
              Huniq answered_db_ranking) as [_ H].
  apply (H (mk_agent_response 104 d_request carol false (Some 0%Q)
              (Some "No matching skills found") (Some []))).
  - right; left; reflexivity.
  - reflexivity.
  - reflexivity.
Defined.

Lemma ranked_rows_nil (db : database) (rid : uuid) :
  (forall ar, In ar (agent_responses db) -> ar_request_id ar = rid ->
              ar_is_match ar = false) ->
  ranked_rows db rid = [].
Proof.
  intros H. destruct (ranked_rows db rid) as [|r t] eqn:E; [reflexivity|].
  assert (Hr : In r (ranked_rows db rid)) by (rewrite E; now left).
  apply ranked_rows_In in Hr.
  destruct Hr as (ar & u & p & sr & c & Har & _ & _ & _ & _ & Hrid & Hm & _).
  rewrite (H ar Har Hrid) in Hm. discriminate Hm.
Qed.

(** C8, as the code has it: when no response recorded for the request has
    [is_match = TRUE], the aggregate runs over no row and the function
    returns NULL, in every execution the query allows. *)
Theorem ranked_results_null (db : database) (rid : uuid) :
  (forall ar, In ar (agent_responses db) -> ar_request_id ar = rid ->
              ar_is_match ar = false) ->
  get_ranked_results db rid = None
  /\ (forall res, ranked_results db rid res -> res = None).
Proof.
  intros H. pose proof (ranked_rows_nil db rid H) as E. split.
  - unfold get_ranked_results. now rewrite E.
  - intros res [out [[Hperm _] ->]]. rewrite E in Hperm.
    apply Permutation_nil in Hperm. now subst out.
Qed.

Lemma ranked_results_null_witness :
  agent_responses declined_db
  = [mk_agent_response 102 d_request carol false (Some 0%Q)
       (Some "No matching skills found") (Some [])]
  /\ get_ranked_results declined_db d_request = None.
Proof.
  split; [reflexivity|].
  refine (proj1 (ranked_results_null declined_db d_request _)).
  intros ar Har _. destruct Har as [<-|[]]. reflexivity.
Defined.

(** The sibling [get_connections] guards the same aggregate with COALESCE:
    for a user without connections it returns the empty array. *)
Example get_connections_empty : get_connections sample_db 99 = [].
Proof. reflexivity. Qed.

Lemma sorted_perm_unique (l1 : list ranked_match) :
  forall l2,
    StronglySorted rank_before l1 -> StronglySorted rank_before l2 ->
    Permutation l1 l2 -> tie_free l1 -> l1 = l2.
Proof.
  induction l1 as [|a t1 IH]; intros l2 Hs1 Hs2 Hperm Hfree.
  - apply Permutation_nil in Hperm. now subst.
  - destruct l2 as [|b t2].
    + apply Permutation_sym, Permutation_nil in Hperm. discriminate Hperm.
    + inversion Hs1 as [|? ? Hs1' Hall1]; subst.
      inversion Hs2 as [|? ? Hs2' Hall2]; subst.
      assert (Hab : a = b).
      { assert (Hb : In b (a :: t1))
          by (apply (Permutation_in _ (Permutation_sym Hperm)); now left).
        assert (Ha : In a (b :: t2))
          by (apply (Permutation_in _ Hperm); now left).
        destruct Hb as [Hb|Hb]; [assumption|].
        destruct Ha as [Ha|Ha]; [now symmetry|].
        rewrite Forall_forall in Hall1, Hall2.
        apply Hfree; [now left | now right | now apply Hall1 | now apply Hall2]. }
      subst b. f_equal. apply IH; auto.
      * now apply Permutation_cons_inv in Hperm.
      * intros x y Hx Hy. apply Hfree; now right.
Qed.

(** C6 as the specification words it does not hold: the query orders by the
    final score alone, so with two candidates of equal final score both
    orders are results of the same call on the same data. *)
Lemma rank_ties_unordered :
  ranked_results tie_db d_request (Some [alice_row; carol_row])
  /\ ranked_results tie_db d_request (Some [carol_row; alice_row])
  /\ [alice_row; carol_row] <> [carol_row; alice_row].
Proof.
  assert (Hrows : ranked_rows tie_db d_request = [alice_row; carol_row])
    by reflexivity.
  split; [|split].
  - exists [alice_row; carol_row]. split; [|reflexivity]. rewrite Hrows. split.
    + apply Permutation_refl.
    + repeat constructor.
  - exists [carol_row; alice_row]. split; [|reflexivity]. rewrite Hrows. split.
    + apply perm_swap.
    + repeat constructor.
  - intros H. discriminate H.
Qed.

(** The executable function itself depends on the heap order of the table:
    the same two responses stored in the other order rank the other way. *)
Example rank_follows_heap_order :
  get_ranked_results tie_db d_request = Some [alice_row; carol_row]
  /\ get_ranked_results
       {| users := users tie_db; profiles := profiles tie_db;
          connections := connections tie_db;
          service_requests := service_requests tie_db;
          agent_responses := rev (agent_responses tie_db);
          agent_messages := agent_messages tie_db;
          uuid_seq := uuid_seq tie_db |} d_request
     = Some [carol_row; alice_row].
Proof. split; reflexivity. Qed.

(** C6, amended.  Any two results of [get_ranked_results] for the same
    request on the same data are descending in the final score and hold the
    same rows; they are the same sequence when no two different rows have
    equal final score.  No secondary key orders rows of equal final score. *)
Theorem rank_reproducible (db : database) (rid : uuid)
    (res1 res2 : option (list ranked_match)) :
  ranked_results db rid res1 -> ranked_results db rid res2 ->
  StronglySorted rank_before (coalesce res1 [])
  /\ StronglySorted rank_before (coalesce res2 [])
  /\ Permutation (coalesce res1 []) (coalesce res2 [])
  /\ (tie_free (ranked_rows db rid) -> res1 = res2).
Proof.
  intros [o1 [[Hp1 Hs1] ->]] [o2 [[Hp2 Hs2] ->]].
  rewrite !sql_agg_coalesce.
  assert (Hp : Permutation o1 o2)
    by (apply Permutation_trans with (ranked_rows db rid);
        [now apply Permutation_sym | assumption]).
  split; [assumption|]. split; [assumption|]. split; [assumption|].
  intros Hfree. f_equal. apply sorted_perm_unique; auto.
  intros x y Hx Hy.
  apply Hfree; apply (Permutation_in _ (Permutation_sym Hp1)); assumption.
Qed.

Lemma scored_db_ranking :
  ranked_results scored_db d_request (Some [scored_alice_row; scored_carol_row]).
Proof.
  exists [scored_alice_row; scored_carol_row]. split; [|reflexivity]. split.
  - apply perm_swap.
  - repeat constructor.
Qed.

Lemma tie_db_orders :
  ranked_results tie_db d_request (Some [alice_row; carol_row])
  /\ ranked_results tie_db d_request (Some [carol_row; alice_row]).
Proof.
  split.
  - exists [alice_row; carol_row]. split; [|reflexivity]. split.
    + apply Permutation_refl.
    + repeat constructor.
  - exists [carol_row; alice_row]. split; [|reflexivity]. split.
    + apply perm_swap.
    + repeat constructor.
Qed.

Lemma rank_reproducible_witness :
  ranked_rows scored_db d_request = [scored_carol_row; scored_alice_row]
  /\ tie_free (ranked_rows scored_db d_request)
  /\ get_ranked_results scored_db d_request
     = Some [scored_alice_row; scored_carol_row]
  /\ Permutation [alice_row; carol_row] [carol_row; alice_row].
Proof.
  assert (Hfree : tie_free (ranked_rows scored_db d_request)).
  { intros x y Hx Hy Hxy Hyx.
    destruct Hx as [<-|[<-|[]]]; destruct Hy as [<-|[<-|[]]];
      try reflexivity;
      [vm_compute in Hxy; discriminate Hxy | vm_compute in Hyx; discriminate Hyx]. }
  split; [reflexivity|]. split; [exact Hfree|]. split.
  - apply (rank_reproducible scored_db d_request
             (get_ranked_results scored_db d_request)
             (Some [scored_alice_row; scored_carol_row])
             (get_ranked_results_allowed scored_db d_request) scored_db_ranking).
    exact Hfree.
  - exact (proj1 (proj2 (proj2
             (rank_reproducible tie_db d_request (Some [alice_row; carol_row])
                (Some [carol_row; alice_row])
                (proj1 tie_db_orders) (proj2 tie_db_orders))))).
Defined.

(** ** Statements that write *)

(** What a successful INSERT INTO agent_messages leaves as it was. *)
Lemma insert_agent_messages_frame (rows : list message_values) :
  forall db db', insert_agent_messages db rows = Ok tt db' ->
    users db' = users db
    /\ service_requests db' = service_requests db
    /\ connections db' = connections db
    /\ agent_responses db' = agent_responses db
    /\ exists added, agent_messages db' = agent_messages db ++ added
                     /\ List.length added = List.length rows.
Proof.
  induction rows as [|v rest IH]; simpl; intros db db' H.
  - injection H as <-. repeat split; auto. exists []. now rewrite app_nil_r.
  - unfold insert_agent_message in H.
    destruct (_ && _ && _); [|discriminate H].
    apply IH in H. simpl in H.
    destruct H as (Hu & Hs & Hc & Hr & added & Hm & Hlen).
    repeat split; auto.
    eexists (_ :: added). rewrite Hm, <- app_assoc. simpl. split; [reflexivity|].
    now rewrite Hlen.
Qed.

Lemma insert_agent_messages_error (rows : list message_values) :
  forall db e, insert_agent_messages db rows = Raise e -> e = foreign_key_violation.
Proof.
  induction rows as [|v rest IH]; simpl; intros db e H; [discriminate H|].
  unfold insert_agent_message in H.
  destruct (_ && _ && _); [now apply IH in H | congruence].
Qed.

Lemma record_agent_response_inv (db : database) (rid uid : uuid)
    (ev : match_evaluation) (id : uuid) (db1 : database) :
  record_agent_response db rid uid ev = Ok id db1 ->
  exists m,
    ev_is_match ev = Some m
    /\ existsb (same_pair rid uid) (agent_responses db) = false
    /\ request_exists db rid = true /\ user_exists db uid = true
    /\ id = uuid_seq db
    /\ agent_responses db1
       = agent_responses db
         ++ [mk_agent_response id rid uid m (ev_match_score ev) (ev_explanation ev)
               (ev_matched_skills ev)].
Proof.
  unfold record_agent_response, insert_agent_response. intros H.
  destruct (ev_is_match ev) as [m|]; [|discriminate H].
  destruct (existsb _ _) eqn:Edup; [discriminate H|].
  destruct (request_exists db rid && user_exists db uid) eqn:Efk; [|discriminate H].
  apply andb_true_iff in Efk. destruct Efk as [Er Eu].
  destruct (insert_agent_messages _ _) as [[] db2|e] eqn:Emsg; [|discriminate H].
  injection H as <- <-.
  apply insert_agent_messages_frame in Emsg. simpl in Emsg.
  destruct Emsg as (_ & _ & _ & Hr & _).
  exists m. repeat split; auto.
Qed.

Lemma same_pair_key (rid uid : uuid) (ar : agent_response) :
  same_pair rid uid ar = true
  <-> (ar_request_id ar, responding_user_id ar) = (rid, uid).
Proof.
  unfold same_pair. rewrite andb_true_iff, !Nat.eqb_eq.
  split; [intros [-> ->]; reflexivity | intros H; injection H; auto].
Qed.

Lemma no_same_pair (rid uid : uuid) (l : list agent_response) :
  existsb (same_pair rid uid) l = false ->
  filter (same_pair rid uid) l = []
  /\ ~ In (rid, uid) (map (fun ar => (ar_request_id ar, responding_user_id ar)) l).
Proof.
  intros H. split.
  - induction l as [|a t IH]; simpl in *; [reflexivity|].
    apply orb_false_iff in H. destruct H as [Ha Ht]. rewrite Ha. auto.
  - intros Hin. apply in_map_iff in Hin. destruct Hin as [ar [Hk Har]].
    apply same_pair_key in Hk.
    assert (existsb (same_pair rid uid) l = true)
      by (apply existsb_exists; eauto).
    congruence.
Qed.

(** C4. Once a response is recorded for a (request, candidate) pair, it is
    the only row of that pair and carries the recorded verdict; every later
    attempt for the pair raises an error, the unique violation whenever the
    attempt carries a verdict, and leaves every table, the message log
    included, as it was.  The uniqueness of the pairs is kept. *)
Theorem one_response_per_pair (db : database) (rid uid : uuid)
    (ev : match_evaluation) (id : uuid) (db1 : database) :
  unique_response_keys db ->
  record_agent_response db rid uid ev = Ok id db1 ->
  unique_response_keys db1
  /\ filter (same_pair rid uid) (agent_responses db1)
     = [mk_agent_response id rid uid (is_match ev) (ev_match_score ev)
          (ev_explanation ev) (ev_matched_skills ev)]
  /\ forall ev2,
       (exists e, record_agent_response db1 rid uid ev2 = Raise e
                  /\ (ev_is_match ev2 <> None -> e = unique_violation))
       /\ commit db1 (record_agent_response db1 rid uid ev2) = db1
       /\ filter (same_pair rid uid)
            (agent_responses (commit db1 (record_agent_response db1 rid uid ev2)))
          = [mk_agent_response id rid uid (is_match ev) (ev_match_score ev)
               (ev_explanation ev) (ev_matched_skills ev)].
Proof.
  intros Huniq Hok. apply record_agent_response_inv in Hok.
  destruct Hok as (m & Hm & Hdup & _ & _ & _ & Hresp).
  destruct (no_same_pair rid uid _ Hdup) as [Hfil Hnot].
  assert (Hone : filter (same_pair rid uid) (agent_responses db1)
                 = [mk_agent_response id rid uid (is_match ev) (ev_match_score ev)
                      (ev_explanation ev) (ev_matched_skills ev)]).
  { rewrite Hresp, filter_app, Hfil. unfold is_match. rewrite Hm. simpl.
    unfold same_pair. simpl. now rewrite !Nat.eqb_refl. }
  split; [|split; [exact Hone|]].
  - unfold unique_response_keys in *. rewrite Hresp, map_app. simpl.
    eapply Permutation_NoDup; [apply Permutation_cons_append|].
    now constructor.
  - intros ev2.
    assert (Hex : existsb (same_pair rid uid) (agent_responses db1) = true).
    { apply existsb_exists. eexists. split.
      - rewrite Hresp. apply in_or_app. right. left. reflexivity.
      - unfold same_pair. simpl. now rewrite !Nat.eqb_refl. }
    assert (Hraise : exists e, record_agent_response db1 rid uid ev2 = Raise e
                               /\ (ev_is_match ev2 <> None -> e = unique_violation)).
    { unfold record_agent_response, insert_agent_response. rewrite Hex.
      destruct (ev_is_match ev2) as [m2|].
      - exists unique_violation. auto.
      - exists not_null_violation. split; [reflexivity | congruence]. }
    split; [exact Hraise|].
    destruct Hraise as [e [-> _]]. simpl. auto.
Qed.

Lemma one_response_per_pair_witness :
  unique_response_keys workflow_db
  /\ record_agent_response workflow_db d_request alice
       (evaluate_match workflow_db d_request alice) = Ok 100%nat recorded_db
  /\ exists e,
       record_agent_response recorded_db d_request alice
         (evaluate_match recorded_db d_request alice) = Raise e
       /\ (ev_is_match (evaluate_match recorded_db d_request alice) <> None ->
           e = unique_violation).
Proof.
  assert (Hu : unique_response_keys workflow_db) by constructor.
  assert (Hok : record_agent_response workflow_db d_request alice
                  (evaluate_match workflow_db d_request alice) = Ok 100%nat recorded_db)
    by reflexivity.
  split; [exact Hu|]. split; [exact Hok|].
  destruct (one_response_per_pair workflow_db d_request alice
              (evaluate_match workflow_db d_request alice) 100%nat recorded_db Hu Hok)
    as (_ & _ & H).
  exact (proj1 (H (evaluate_match recorded_db d_request alice))).
Defined.

Example second_record_rejected :
  record_agent_response recorded_db d_request alice
    (mk_match_evaluation (Some false) (Some 0%Q) (Some []) (Some "changed my mind"))
  = Raise unique_violation.
Proof. reflexivity. Qed.

(** Broadcasting writes to the message log only. *)
Lemma broadcast_request_frame (db : database) (requester rid : uuid)
    (v : broadcast_result) (db' : database) :
  broadcast_request db requester rid = Ok v db' ->
  agent_responses db' = agent_responses db
  /\ service_requests db' = service_requests db
  /\ connections db' = connections db.
Proof.
  unfold broadcast_request. intros H.
  destruct (insert_agent_messages _ _) as [[] db2|e] eqn:E; [|discriminate H].
  injection H as _ <-. apply insert_agent_messages_frame in E. tauto.
Qed.

(** ** broadcast_request *)

Lemma connected_users_none (db : database) (requester : uuid) :
  (forall c, In c (connections db) -> touches requester c = false) ->
  connected_users_of db requester = None.
Proof.
  intros H. unfold connected_users_of.
  assert (E : filter (touches requester) (connections db) = []).
  { induction (connections db) as [|c t IH]; simpl; [reflexivity|].
    rewrite (H c) by now left. apply IH. intros c' Hc'. apply H. now right. }
  now rewrite E.
Qed.

(** C7, as the code has it: for a requester without connections the call
    succeeds and writes nothing, and the count it returns under
    [broadcast_to] is NULL, the length of the NULL array, not 0. *)
Theorem broadcast_without_connections (db : database) (requester rid : uuid) :
  (forall c, In c (connections db) -> touches requester c = false) ->
  broadcast_request db requester rid
  = Ok {| broadcast_to := None; br_request_id := rid; br_status := "sent" |} db.
Proof.
  intros H. unfold broadcast_request.
  now rewrite (connected_users_none db requester H).
Qed.

Lemma broadcast_without_connections_witness :
  broadcast_to_of (broadcast_request lonely_db dave dave_request) = Some None
  /\ commit lonely_db (broadcast_request lonely_db dave dave_request) = lonely_db.
Proof.
  assert (H : forall c, In c (connections lonely_db) -> touches dave c = false).
  { intros c Hc. simpl in Hc.
    destruct Hc as [<-|[<-|[<-|[]]]]; reflexivity. }
  rewrite (broadcast_without_connections lonely_db dave dave_request H).
  split; reflexivity.
Defined.

(** With connections the count is their number. *)
Example broadcast_to_two :
  broadcast_to_of (broadcast_request workflow_db bob d_request) = Some (Some 2%nat).
Proof. reflexivity. Qed.

(** ** The status column *)

(** C5 as the specification words it does not hold: on a completed request
    both the broadcast and the recording of a response succeed, and a
    broadcast for a request id that references no row succeeds when the
    requester has no connections. *)
Lemma closed_request_still_served :
  option_map status (find_request closed_db d_request) = Some completed
  /\ (exists v db', broadcast_request closed_db bob d_request = Ok v db')
  /\ (exists id db',
        record_agent_response closed_db d_request alice
          (evaluate_match closed_db d_request alice) = Ok id db')
  /\ request_exists lonely_db 77 = false
  /\ (exists v db', broadcast_request lonely_db dave 77 = Ok v db').
Proof.
  split; [reflexivity|].
  split; [eexists; eexists; reflexivity|].
  split; [eexists; eexists; reflexivity|].
  split; [reflexivity|].
  eexists; eexists; reflexivity.
Qed.

Section Status.

Variable f : service_request -> request_status.

Lemma request_exists_with_status (db : database) (id : uuid) :
  request_exists (with_status f db) id = request_exists db id.
Proof.
  unfold request_exists, with_status. simpl.
  induction (service_requests db) as [|sr t IH]; simpl; [reflexivity|].
  now rewrite IH.
Qed.

Lemma insert_agent_message_with_status (db : database) (v : message_values) :
  insert_agent_message (with_status f db) v
  = map_outcome (with_status f) (insert_agent_message db v).
Proof.
  unfold insert_agent_message.
  replace (fk_opt (request_exists (with_status f db)) (v_request v))
    with (fk_opt (request_exists db) (v_request v))
    by (destruct (v_request v); simpl; now rewrite ?request_exists_with_status).
  change (user_exists (with_status f db)) with (user_exists db).
  destruct (_ && _ && _); reflexivity.
Qed.

Lemma insert_agent_messages_with_status (rows : list message_values) :
  forall db,
    insert_agent_messages (with_status f db) rows
    = map_outcome (with_status f) (insert_agent_messages db rows).
Proof.
  induction rows as [|v rest IH]; intros db; simpl; [reflexivity|].
  rewrite insert_agent_message_with_status.
  destruct (insert_agent_message db v) as [[] db'|e]; simpl; [apply IH | reflexivity].
Qed.

Lemma insert_agent_response_with_status (db : database) (rid uid : uuid)
    (ev : match_evaluation) :
  insert_agent_response (with_status f db) rid uid ev
  = map_outcome (with_status f) (insert_agent_response db rid uid ev).
Proof.
  unfold insert_agent_response. rewrite request_exists_with_status.
  change (user_exists (with_status f db)) with (user_exists db).
  change (agent_responses (with_status f db)) with (agent_responses db).
  destruct (ev_is_match ev); [|reflexivity].
  destruct (existsb _ _); [reflexivity|].
  destruct (_ && _); reflexivity.
Qed.

Lemma response_messages_with_status (db : database) (rid : uuid)
    (g : uuid -> message_values) :
  map (fun sr => g (requesting_user_id sr))
      (filter (fun sr => Nat.eqb (sr_id sr) rid) (service_requests (with_status f db)))
  = map (fun sr => g (requesting_user_id sr))
        (filter (fun sr => Nat.eqb (sr_id sr) rid) (service_requests db)).
Proof.
  unfold with_status. simpl.
  induction (service_requests db) as [|sr t IH]; simpl; [reflexivity|].
  destruct (Nat.eqb (sr_id sr) rid); simpl; now rewrite IH.
Qed.

End Status.

(** C5, amended.  Neither function reads the status of the request: on a
    database whose requests carry any other status, completed and cancelled
    included, each does exactly what it does otherwise.  For a request id
    that references no row, recording a response raises an error, and the
    broadcast raises the foreign-key violation when the requester has at
    least one connection. *)
Theorem request_status_not_checked (db : database)
    (f : service_request -> request_status) (requester rid uid : uuid)
    (ev : match_evaluation) :
  broadcast_request (with_status f db) requester rid
  = map_outcome (with_status f) (broadcast_request db requester rid)
  /\ record_agent_response (with_status f db) rid uid ev
     = map_outcome (with_status f) (record_agent_response db rid uid ev)
  /\ (request_exists db rid = false ->
      (exists e, record_agent_response db rid uid ev = Raise e)
      /\ (connected_users_of db requester <> None ->
          broadcast_request db requester rid = Raise foreign_key_violation)).
Proof.
  split; [|split].
  - unfold broadcast_request.
    change (connected_users_of (with_status f db) requester)
      with (connected_users_of db requester).
    rewrite insert_agent_messages_with_status.
    destruct (insert_agent_messages db _) as [[] db'|e]; reflexivity.
  - unfold record_agent_response. rewrite insert_agent_response_with_status.
    destruct (insert_agent_response db rid uid ev) as [id db1|e];
      cbn [map_outcome]; [|reflexivity].
    rewrite (response_messages_with_status f db1 rid
               (fun q => mk_message_values uid (Some q) response
                           (payload_response id (ev_is_match ev)) (Some rid))).
    rewrite insert_agent_messages_with_status.
    destruct (insert_agent_messages db1 _) as [[] db2|e]; reflexivity.
  - intros Hno. split.
    + unfold record_agent_response, insert_agent_response. rewrite Hno. simpl.
      destruct (ev_is_match ev); [|eauto].
      destruct (existsb _ _); eauto.
    + intros Hconn. unfold broadcast_request.
      destruct (connected_users_of db requester) as [[|u l]|] eqn:E;
        [ | | congruence].
      * unfold connected_users_of in E.
        destruct (map _ _); discriminate E.
      * simpl. unfold insert_agent_message. simpl. rewrite Hno.
        now rewrite andb_false_r.
Qed.

Lemma request_status_not_checked_witness :
  request_exists workflow_db 77 = false
  /\ connected_users_of workflow_db bob <> None
  /\ broadcast_request workflow_db bob 77 = Raise foreign_key_violation.
Proof.
  assert (Hno : request_exists workflow_db 77 = false) by reflexivity.
  assert (Hconn : connected_users_of workflow_db bob <> None)
    by (intros H; discriminate H).
  split; [exact Hno|]. split; [exact Hconn|].
  destruct (request_status_not_checked workflow_db (fun _ => active) bob 77 alice
              (evaluate_match workflow_db 77 alice)) as (_ & _ & H).
  exact (proj2 (H Hno) Hconn).
Defined.

Example cancelled_request_recorded :
  record_agent_response (with_status (fun _ => cancelled) workflow_db) d_request alice
    (evaluate_match workflow_db d_request alice)
  = Ok 100%nat (with_status (fun _ => cancelled) recorded_db).
Proof. reflexivity. Qed.

(** * Further properties of the stored functions *)

(** ** evaluate_match: edges, threshold, order and growth *)

Lemma is_match_leb (request_skills profile_skills : option (list string)) :
  is_match (evaluate request_skills profile_skills)
  = Nat.leb (3 * Nat.max (List.length (jsonb_array_elements_text request_skills)) 1)
            (10 * List.length (common_skills request_skills profile_skills)).
Proof.
  rewrite is_match_evaluate.
  set (b := Nat.max (List.length (jsonb_array_elements_text request_skills)) 1).
  set (a := List.length (common_skills request_skills profile_skills)).
  assert (Hb : (0 < float_of_nat b)%Q) by (apply float_of_nat_pos; subst b; lia).
  assert (Hs : (score (evaluate request_skills profile_skills)
                == float_of_nat a / float_of_nat b)%Q) by apply score_evaluate.
  assert (Hiff : (match_threshold <= float_of_nat a / float_of_nat b)%Q
                 <-> (3 * b <= 10 * a)%nat).
  { split.
    - intros H. apply (Qmult_le_compat_r _ _ (float_of_nat b)) in H;
        [|now apply Qlt_le_weak].
      unfold Qdiv in H. rewrite <- Qmult_assoc, (Qmult_comm (/ _)), Qmult_inv_r in H
        by (intros E; rewrite E in Hb; discriminate Hb).
      rewrite Qmult_1_r in H.
      unfold match_threshold, float_of_nat, Qle, Qmult in H.
      cbn [Qnum Qden inject_Z] in H. lia.
    - intros H. apply Qle_shift_div_l; [exact Hb|].
      unfold match_threshold, float_of_nat, Qle, Qmult.
      cbn [Qnum Qden inject_Z]. lia. }
  destruct (Nat.leb_spec (3 * b) (10 * a)) as [Hle|Hgt].
  - apply Qle_bool_iff. rewrite Hs. now apply Hiff.
  - destruct (Qle_bool _ _) eqn:E; [|reflexivity].
    apply Qle_bool_iff in E. rewrite Hs in E. apply Hiff in E. lia.
Qed.

(** X2. The verdict in whole numbers: a candidate matches exactly when ten
    times the matched entries reach three times the required entries (at
    least three, when nothing is required). *)
Theorem is_match_threshold (request_skills profile_skills : option (list string)) :
  is_match (evaluate request_skills profile_skills) = true
  <-> (3 * Nat.max (List.length (jsonb_array_elements_text request_skills)) 1
       <= 10 * List.length (matchedSkills (evaluate request_skills profile_skills)))%nat.
Proof.
  rewrite matchedSkills_evaluate, is_match_leb. apply Nat.leb_le.
Qed.

Lemma filter_Permutation {A : Type} (f : A -> bool) (l l' : list A) :
  Permutation l l' -> Permutation (filter f l) (filter f l').
Proof.
  induction 1 as [|x l l' _ IH|x y l|l l' l'' _ IH1 _ IH2]; simpl.
  - constructor.
  - destruct (f x); [now constructor | assumption].
  - destruct (f x), (f y); try reflexivity. apply perm_swap.
  - now transitivity (filter f l').
Qed.

Lemma common_skills_Permutation (r r' p p' : option (list string)) :
  Permutation (jsonb_array_elements_text r) (jsonb_array_elements_text r') ->
  Permutation (jsonb_array_elements_text p) (jsonb_array_elements_text p') ->
  Permutation (common_skills r p) (common_skills r' p').
Proof.
  intros Hr Hp. unfold common_skills.
  transitivity (filter (fun skill => sql_in skill (jsonb_array_elements_text r))
                       (jsonb_array_elements_text p')).
  - now apply filter_Permutation.
  - erewrite filter_ext; [reflexivity|]. intros s.
    destruct (sql_in s (jsonb_array_elements_text r)) eqn:E1,
             (sql_in s (jsonb_array_elements_text r')) eqn:E2; try reflexivity.
    + apply sql_in_In in E1. apply (Permutation_in _ Hr) in E1.
      apply sql_in_In in E1. congruence.
    + apply sql_in_In in E2. apply (Permutation_in _ (Permutation_sym Hr)) in E2.
      apply sql_in_In in E2. congruence.
Qed.

(** X3. The order of the entries in either array does not matter: rearranging
    them keeps the score and the verdict, and rearranges the matched
    skills. *)
Theorem evaluate_order_irrelevant (r r' p p' : option (list string)) :
  Permutation (jsonb_array_elements_text r) (jsonb_array_elements_text r') ->
  Permutation (jsonb_array_elements_text p) (jsonb_array_elements_text p') ->
  (score (evaluate r p) == score (evaluate r' p'))%Q
  /\ is_match (evaluate r p) = is_match (evaluate r' p')
  /\ Permutation (matchedSkills (evaluate r p)) (matchedSkills (evaluate r' p')).
Proof.
  intros Hr Hp.
  pose proof (common_skills_Permutation r r' p p' Hr Hp) as Hc.
  pose proof (Permutation_length Hc) as Hlc.
  pose proof (Permutation_length Hr) as Hlr.
  split; [|split].
  - rewrite !score_evaluate. now rewrite Hlc, Hlr.
  - rewrite !is_match_leb. now rewrite Hlc, Hlr.
  - now rewrite !matchedSkills_evaluate.
Qed.

Lemma evaluate_order_irrelevant_witness :
  is_match (evaluate figma_criteria figma_profile)
  = is_match (evaluate (Some ["UI/UX Design"; "Figma"])
                       (Some ["Design Systems"; "Figma"; "UI/UX Design"])).
Proof.
  apply (evaluate_order_irrelevant figma_criteria (Some ["UI/UX Design"; "Figma"])
           figma_profile (Some ["Design Systems"; "Figma"; "UI/UX Design"])).
  - apply perm_swap.
  - simpl. apply Permutation_rev with (l := ["UI/UX Design"; "Figma"; "Design Systems"]).
Defined.

(** X4. Listing further skills in a profile never lowers the score and never
    turns a match into a non-match. *)
Theorem evaluate_more_skills (request_skills : option (list string))
    (held extra : list string) :
  (score (evaluate request_skills (Some held))
   <= score (evaluate request_skills (Some (held ++ extra))))%Q
  /\ (is_match (evaluate request_skills (Some held)) = true ->
      is_match (evaluate request_skills (Some (held ++ extra))) = true).
Proof.
  assert (Hlen : (List.length (common_skills request_skills (Some held))
                  <= List.length (common_skills request_skills (Some (held ++ extra))))%nat).
  { unfold common_skills. simpl. rewrite filter_app, length_app. lia. }
  split.
  - rewrite !score_evaluate. unfold Qdiv.
    apply Qmult_le_compat_r; [now apply float_of_nat_le|].
    apply Qinv_le_0_compat, float_of_nat_nonneg.
  - rewrite !is_match_leb, !Nat.leb_le. lia.
Qed.

Lemma evaluate_more_skills_witness :
  is_match (evaluate figma_criteria (Some (["Figma"] ++ ["React"]))) = true.
Proof.
  apply (evaluate_more_skills figma_criteria ["Figma"] ["React"]). reflexivity.
Defined.

(** X5. A candidate who holds every required skill scores exactly 1 and
    matches, when at least one skill is required and neither array repeats
    an entry. *)
Theorem evaluate_full_match (request_skills profile_skills : option (list string)) :
  jsonb_array_elements_text request_skills <> [] ->
  NoDup (jsonb_array_elements_text request_skills) ->
  NoDup (jsonb_array_elements_text profile_skills) ->
  incl (jsonb_array_elements_text request_skills)
       (jsonb_array_elements_text profile_skills) ->
  (score (evaluate request_skills profile_skills) == 1)%Q
  /\ is_match (evaluate request_skills profile_skills) = true.
Proof.
  intros Hne Hnr Hnp Hincl.
  set (req := jsonb_array_elements_text request_skills) in *.
  assert (Hlen : List.length (common_skills request_skills profile_skills)
                 = List.length req).
  { apply Nat.le_antisymm; [now apply common_skills_length|].
    apply NoDup_incl_length; [assumption|].
    intros s Hs. apply common_skills_In. auto. }
  assert (Hpos : (0 < List.length req)%nat)
    by (destruct req; [congruence | simpl; lia]).
  split.
  - rewrite score_evaluate, Hlen. fold req.
    replace (Nat.max (List.length req) 1) with (List.length req) by lia.
    apply Qmult_inv_r. intros E.
    pose proof (float_of_nat_pos _ Hpos) as H. rewrite E in H. discriminate H.
  - rewrite is_match_leb, Hlen. fold req. apply Nat.leb_le. lia.
Qed.

Lemma evaluate_full_match_witness :
  (score (evaluate figma_criteria figma_profile) == 1)%Q
  /\ is_match (evaluate figma_criteria figma_profile) = true.
Proof.
  apply (evaluate_full_match figma_criteria figma_profile).
  - discriminate.
  - repeat constructor; simpl; intuition discriminate.
  - repeat constructor; simpl; intuition discriminate.
  - intros s Hs. simpl in *. intuition.
Defined.

(** ** get_connections and broadcast_request *)

Lemma user_exists_In (db : database) (id : uuid) :
  user_exists db id = true <-> exists u, In u (users db) /\ u_id u = id.
Proof.
  unfold user_exists. rewrite existsb_exists.
  split; intros [u [Hin H]]; exists u; split; auto; now apply Nat.eqb_eq.
Qed.

Lemma request_exists_In (db : database) (id : uuid) :
  request_exists db id = true <-> exists sr, In sr (service_requests db) /\ sr_id sr = id.
Proof.
  unfold request_exists. rewrite existsb_exists.
  split; intros [u [Hin H]]; exists u; split; auto; now apply Nat.eqb_eq.
Qed.

Lemma touches_other_end (a b : uuid) (c : connection) :
  touches a c = true /\ other_end a c = b <-> links c a b.
Proof.
  unfold touches, other_end, links. rewrite orb_true_iff, !Nat.eqb_eq.
  destruct (Nat.eqb_spec (user_a_id c) a) as [E|E]; split; intros H.
  - left. tauto.
  - split; [now left|]. destruct H as [[_ H]|[H1 H2]]; congruence.
  - right. destruct H as [[H|H] H']; [congruence | tauto].
  - destruct H as [[H _]|[H1 H2]]; [congruence | tauto].
Qed.

Lemma links_sym (c : connection) (a b : uuid) : links c a b <-> links c b a.
Proof. unfold links. tauto. Qed.

Lemma get_connections_In (db : database) (a : uuid) (ci : connection_info) :
  In ci (get_connections db a)
  <-> exists c u,
        In c (connections db) /\ links c a (ci_user_id ci)
        /\ In u (users db) /\ u_id u = ci_user_id ci
        /\ ci_name ci = u_name u /\ ci_trust_score ci = c_trust_score c.
Proof.
  unfold get_connections. rewrite sql_agg_coalesce, in_flat_map. split.
  - intros [c [Hc Hin]]. apply filter_In in Hc. destruct Hc as [Hc Ht].
    apply in_map_iff in Hin. destruct Hin as [u [<- Hu]].
    apply filter_In in Hu. destruct Hu as [Hu Hid]. apply Nat.eqb_eq in Hid.
    exists c, u. simpl. repeat split; auto. now apply touches_other_end.
  - intros (c & u & Hc & Hl & Hu & Hid & Hn & Ht).
    apply touches_other_end in Hl. destruct Hl as [Htouch Hother].
    exists c. split; [now apply filter_In|].
    apply in_map_iff. exists u. split.
    + destruct ci; simpl in *. congruence.
    + apply filter_In. split; [assumption|]. apply Nat.eqb_eq. congruence.
Qed.

(** X6. Connections are undirected: [b] is listed among the connections of [a]
    with some trust score exactly when [a] is listed among those of [b]
    with the same trust score, whichever endpoint the row stores first. *)
Theorem get_connections_symmetric (db : database) (ua ub : user) (t : option Q) :
  In ua (users db) -> In ub (users db) ->
  (In (mk_connection_info (u_id ub) (u_name ub) t) (get_connections db (u_id ua))
   <-> In (mk_connection_info (u_id ua) (u_name ua) t) (get_connections db (u_id ub))).
Proof.
  intros Ha Hb. rewrite !get_connections_In. simpl.
  split; intros (c & u & Hc & Hl & _ & _ & _ & Ht).
  - exists c, ua. repeat split; auto. now apply links_sym.
  - exists c, ub. repeat split; auto. now apply links_sym.
Qed.

Lemma get_connections_symmetric_witness :
  In (mk_connection_info alice "Alice Designer" (Some (9 # 10)))
     (get_connections sample_db bob).
Proof.
  apply (get_connections_symmetric sample_db
           (mk_user alice "alice@example.com" "Alice Designer")
           (mk_user bob "bob@example.com" "Bob Developer") (Some (9 # 10))).
  - left; reflexivity.
  - right; left; reflexivity.
  - left; reflexivity.
Defined.

Lemma filter_key_singleton {A : Type} (key : A -> nat) (l : list A) (x : A) :
  NoDup (map key l) -> In x l ->
  filter (fun y => Nat.eqb (key y) (key x)) l = [x].
Proof.
  induction l as [|a t IH]; simpl; [tauto|].
  intros Hnd Hx. inversion Hnd as [|? ? Hnot Hnd']; subst.
  destruct Hx as [->|Hx].
  - rewrite Nat.eqb_refl. f_equal.
    destruct (filter _ t) as [|y r] eqn:E; [reflexivity|].
    assert (Hy : In y (filter (fun y => Nat.eqb (key y) (key x)) t))
      by (rewrite E; now left).
    apply filter_In in Hy. destruct Hy as [Hy Hk]. apply Nat.eqb_eq in Hk.
    exfalso. apply Hnot. rewrite <- Hk. now apply in_map.
  - destruct (Nat.eqb_spec (key a) (key x)) as [E|E]; [|now apply IH].
    exfalso. apply Hnot. rewrite E. now apply in_map.
Qed.

(** In the model, which takes the rows of both queries in heap order. *)
Lemma get_connections_ids (db : database) (p : uuid) :
  unique_user_ids db -> connections_reference_users db ->
  map ci_user_id (get_connections db p) = unnest (connected_users_of db p).
Proof.
  intros Hpk Hfk. unfold get_connections, connected_users_of.
  rewrite !sql_agg_coalesce.
  change (unnest (sql_agg ?l)) with (coalesce (sql_agg l) []).
  rewrite sql_agg_coalesce.
  assert (Hall : forall c, In c (filter (touches p) (connections db)) ->
                           In c (connections db))
    by (intros c Hc; now apply filter_In in Hc).
  induction (filter (touches p) (connections db)) as [|c t IH]; simpl; [reflexivity|].
  rewrite map_app, IH by (intros c' Hc'; apply Hall; now right).
  assert (Hex : user_exists db (other_end p c) = true).
  { destruct (Hfk c (Hall c (or_introl eq_refl))) as [Ha Hb].
    unfold other_end. now destruct (Nat.eqb _ _). }
  apply user_exists_In in Hex. destruct Hex as [u [Hu Hid]].
  rewrite <- Hid. rewrite (filter_key_singleton u_id (users db) u Hpk Hu).
  reflexivity.
Qed.

Lemma sample_db_keys :
  unique_user_ids sample_db /\ connections_reference_users sample_db.
Proof.
  split.
  - unfold unique_user_ids. simpl. repeat constructor; simpl; intuition discriminate.
  - intros c Hc. simpl in Hc.
    destruct Hc as [<-|[<-|[<-|[]]]]; split; reflexivity.
Qed.

(** X7. With the primary key of [users] and the foreign keys of [connections],
    the users [get_connections] lists are the users [broadcast_request]
    sends the request to, each as often, in whatever order either aggregate
    takes its rows. *)
Theorem get_connections_are_broadcast_targets (db : database) (p : uuid)
    (listed : list connection_info) (targets : list uuid) :
  unique_user_ids db -> connections_reference_users db ->
  Permutation (get_connections db p) listed ->
  Permutation (unnest (connected_users_of db p)) targets ->
  Permutation (map ci_user_id listed) targets.
Proof.
  intros Hpk Hfk Hl Ht.
  rewrite <- Ht, <- (get_connections_ids db p Hpk Hfk).
  apply Permutation_map. now apply Permutation_sym.
Qed.

Lemma get_connections_are_broadcast_targets_witness :
  Permutation (map ci_user_id (rev (get_connections sample_db bob))) [alice; carol].
Proof.
  apply (get_connections_are_broadcast_targets sample_db bob
           (rev (get_connections sample_db bob)) [alice; carol]
           (proj1 sample_db_keys) (proj2 sample_db_keys)).
  - apply Permutation_rev.
  - apply Permutation_refl.
Defined.

Lemma message_fk_ok_same (db db' : database) (v : message_values) :
  users db' = users db -> service_requests db' = service_requests db ->
  message_fk_ok db' v = message_fk_ok db v.
Proof.
  intros Hu Hs. unfold message_fk_ok, user_exists, request_exists.
  now rewrite Hu, Hs.
Qed.

(** INSERT INTO agent_messages, in full: it succeeds exactly when every row
    passes its foreign keys, then appends the rows in order and touches no
    other table; otherwise it raises the foreign-key violation. *)
Lemma insert_agent_messages_spec (rows : list message_values) :
  forall db,
    if forallb (message_fk_ok db) rows
    then exists db' added,
           insert_agent_messages db rows = Ok tt db'
           /\ same_but_messages db db'
           /\ agent_messages db' = agent_messages db ++ added
           /\ map message_content added = rows
    else insert_agent_messages db rows = Raise foreign_key_violation.
Proof.
  induction rows as [|v rest IH]; intros db; simpl.
  - exists db, []. rewrite app_nil_r. unfold same_but_messages. auto 10.
  - unfold insert_agent_message. fold (message_fk_ok db v).
    destruct (message_fk_ok db v) eqn:Ev; simpl; [|reflexivity].
    match goal with |- context [insert_agent_messages ?d rest] => set (db1 := d) end.
    specialize (IH db1).
    assert (Hsame : forallb (message_fk_ok db1) rest = forallb (message_fk_ok db) rest).
    { clear IH. induction rest as [|x r IHr]; simpl; [reflexivity|].
      rewrite IHr. reflexivity. }
    rewrite Hsame in IH. destruct (forallb (message_fk_ok db) rest); [|exact IH].
    destruct IH as (db' & added & Hok & Hsm & Hm & Hc).
    exists db', (mk_agent_message (uuid_seq db) (v_from v) (v_to v) (v_type v)
                   (v_payload v) (v_request v) :: added).
    split; [exact Hok|]. split; [exact Hsm|]. split.
    + rewrite Hm. simpl. now rewrite <- app_assoc.
    + simpl. rewrite Hc. now destruct v.
Qed.

Lemma same_but_messages_reads (db db' : database) :
  same_but_messages db db' ->
  (forall rid, ranked_rows db' rid = ranked_rows db rid)
  /\ (forall rid uid, evaluate_match db' rid uid = evaluate_match db rid uid)
  /\ (forall uid, get_connections db' uid = get_connections db uid).
Proof.
  intros (Hu & Hp & Hc & Hs & Hr).
  destruct db, db'. simpl in *. subst. repeat split.
Qed.

Lemma broadcast_request_spec (db : database) (p rid : uuid) :
  let peers := unnest (connected_users_of db p) in
  if forallb (message_fk_ok db) (map (broadcast_message p rid) peers)
  then exists db' added,
         broadcast_request db p rid
         = Ok (mk_broadcast_result (array_length (connected_users_of db p)) rid "sent") db'
         /\ same_but_messages db db'
         /\ agent_messages db' = agent_messages db ++ added
         /\ map message_content added = map (broadcast_message p rid) peers
  else broadcast_request db p rid = Raise foreign_key_violation.
Proof.
  cbv zeta. unfold broadcast_request.
  pose proof (insert_agent_messages_spec
                (map (broadcast_message p rid) (unnest (connected_users_of db p))) db) as H.
  unfold broadcast_message in *.
  destruct (forallb _ _).
  - destruct H as (db' & added & -> & Hrest). exists db', added. auto.
  - now rewrite H.
Qed.

Lemma connected_users_length (db : database) (p : uuid) :
  array_length (connected_users_of db p)
  = match filter (touches p) (connections db) with
    | [] => None
    | l => Some (List.length l)
    end.
Proof.
  unfold connected_users_of.
  destruct (filter (touches p) (connections db)) as [|c t]; simpl; [reflexivity|].
  now rewrite length_map.
Qed.

(** X8. A successful broadcast appends to the message log one [query_broadcast]
    row per connection of the requester, from the requester to the other
    endpoint and carrying the request id, in the order of the connections;
    it reports their number and changes no other table, so every ranking,
    evaluation and connection list reads as before. *)
Theorem broadcast_request_effect (db : database) (p rid : uuid)
    (v : broadcast_result) (db' : database) :
  broadcast_request db p rid = Ok v db' ->
  (exists added,
     agent_messages db' = agent_messages db ++ added
     /\ map message_content added
        = map (fun c => broadcast_message p rid (other_end p c))
              (filter (touches p) (connections db)))
  /\ broadcast_to v
     = match filter (touches p) (connections db) with
       | [] => None
       | l => Some (List.length l)
       end
  /\ (forall r, get_ranked_results db' r = get_ranked_results db r)
  /\ (forall r u, evaluate_match db' r u = evaluate_match db r u)
  /\ (forall u, get_connections db' u = get_connections db u).
Proof.
  intros Hok. pose proof (broadcast_request_spec db p rid) as H. cbv zeta in H.
  destruct (forallb _ _); [|congruence].
  destruct H as (db1 & added & Heq & Hsame & Hm & Hc).
  rewrite Heq in Hok. injection Hok as <- <-.
  apply same_but_messages_reads in Hsame. destruct Hsame as (Hr & He & Hg).
  split; [|split; [|split; [|split]]]; auto.
  - exists added. split; [exact Hm|]. rewrite Hc.
    unfold connected_users_of.
    change (unnest (sql_agg ?l)) with (coalesce (sql_agg l) []).
    now rewrite sql_agg_coalesce, map_map.
  - simpl. apply connected_users_length.
  - intros r. unfold get_ranked_results. now rewrite Hr.
Qed.

Lemma broadcast_request_effect_witness :
  broadcast_to_of (broadcast_request workflow_db bob d_request) = Some (Some 2%nat)
  /\ get_ranked_results
       (commit workflow_db (broadcast_request workflow_db bob d_request)) d_request
     = get_ranked_results workflow_db d_request.
Proof.
  split; [reflexivity|].
  destruct (broadcast_request workflow_db bob d_request) as [v db'|e] eqn:E;
    [|discriminate E].
  exact (proj1 (proj2 (proj2 (broadcast_request_effect workflow_db bob d_request
                                v db' E))) d_request).
Defined.

(** X9. With the foreign keys of [connections] in place, a broadcast succeeds
    exactly when the requester has no connection or the request id
    references a row; the only error it raises is the foreign-key
    violation.  It checks neither who owns the request nor whether the
    request was broadcast before. *)
Theorem broadcast_request_succeeds_iff (db : database) (p rid : uuid) :
  connections_reference_users db ->
  ((exists v db', broadcast_request db p rid = Ok v db')
   <-> filter (touches p) (connections db) = [] \/ request_exists db rid = true)
  /\ (forall e, broadcast_request db p rid = Raise e -> e = foreign_key_violation).
Proof.
  intros Hfk. pose proof (broadcast_request_spec db p rid) as H. cbv zeta in H.
  assert (Hall : forallb (message_fk_ok db)
                   (map (broadcast_message p rid) (unnest (connected_users_of db p)))
                 = match filter (touches p) (connections db) with
                   | [] => true
                   | _ => request_exists db rid
                   end).
  { unfold connected_users_of.
    change (unnest (sql_agg ?l)) with (coalesce (sql_agg l) []).
    rewrite sql_agg_coalesce, map_map.
    assert (Hin : forall c, In c (filter (touches p) (connections db)) ->
                    message_fk_ok db (broadcast_message p rid (other_end p c))
                    = request_exists db rid).
    { intros c Hc. apply filter_In in Hc. destruct Hc as [Hc Ht].
      destruct (Hfk c Hc) as [Ha Hb].
      unfold message_fk_ok, broadcast_message, other_end, touches in *. simpl.
      destruct (Nat.eqb_spec (user_a_id c) p) as [E|E].
      - rewrite <- E, Ha, Hb. reflexivity.
      - simpl in Ht. apply Nat.eqb_eq in Ht. rewrite <- Ht, Ha, Hb. reflexivity. }
    destruct (filter (touches p) (connections db)) as [|c t]; [reflexivity|].
    destruct (request_exists db rid) eqn:Er.
    - apply forallb_forall. intros x Hx. apply in_map_iff in Hx.
      destruct Hx as [c' [<- Hc']]. now apply Hin.
    - simpl. rewrite Hin by now left. reflexivity. }
  rewrite Hall in H. split.
  - destruct (filter (touches p) (connections db)) as [|c t].
    + destruct H as (db' & added & -> & _). split; eauto.
    + destruct (request_exists db rid).
      * destruct H as (db' & added & -> & _). split; eauto.
      * rewrite H. split.
        -- intros (v & db' & Hbad). discriminate Hbad.
        -- intros [Hbad|Hbad]; discriminate Hbad.
  - intros e He.
    destruct (match filter (touches p) (connections db) with
              | [] => true | _ => request_exists db rid end).
    + destruct H as (db' & added & Heq & _). congruence.
    + congruence.
Qed.

Lemma workflow_db_connections : connections_reference_users workflow_db.
Proof. exact (proj2 sample_db_keys). Qed.

Lemma broadcast_request_succeeds_iff_witness :
  (exists v db', broadcast_request workflow_db alice d_request = Ok v db')
  /\ request_owner_differs.
Proof.
  split; [|reflexivity].
  apply (proj1 (broadcast_request_succeeds_iff workflow_db alice d_request
                  workflow_db_connections)).
  right. reflexivity.
Defined.

(** ** record_agent_response *)

Lemma ranked_from_joined_for (db : database) :
  ranked_from db = flat_map (joined_for db) (agent_responses db).
Proof. reflexivity. Qed.

Lemma joined_for_same (db db' : database) (ar : agent_response) :
  users db' = users db -> profiles db' = profiles db ->
  connections db' = connections db -> service_requests db' = service_requests db ->
  joined_for db' ar = joined_for db ar.
Proof. intros Hu Hp Hc Hs. unfold joined_for. now rewrite Hu, Hp, Hc, Hs. Qed.

Lemma joined_for_first (db : database) (ar : agent_response) (j : joined_row) :
  In j (joined_for db ar) -> exists u p sr c, j = (ar, u, p, sr, c).
Proof.
  unfold joined_for. intros H.
  apply in_flat_map in H. destruct H as [u [_ H]].
  apply in_flat_map in H. destruct H as [p [_ H]].
  apply in_flat_map in H. destruct H as [sr [_ H]].
  apply in_map_iff in H. destruct H as [c [<- _]]. eauto.
Qed.

Lemma joined_for_where (db : database) (rid : uuid) (ar : agent_response) :
  filter (ranked_where rid) (joined_for db ar)
  = if matching_response rid ar then joined_for db ar else [].
Proof.
  assert (H : forall l, (forall j, In j l -> exists u p sr c, j = (ar, u, p, sr, c)) ->
                        filter (ranked_where rid) l
                        = if matching_response rid ar then l else []).
  { induction l as [|j t IH]; intros Hl; simpl.
    - now destruct (matching_response rid ar).
    - destruct (Hl j (or_introl eq_refl)) as (u & p & sr & c & ->).
      rewrite IH by (intros j' Hj'; apply Hl; now right).
      unfold ranked_where, matching_response.
      now destruct (Nat.eqb (ar_request_id ar) rid && ar_is_match ar). }
  apply H. apply joined_for_first.
Qed.

Lemma left_join_nonempty {A : Type} (l : list A) : left_join l <> [].
Proof. destruct l; discriminate. Qed.

Lemma joined_for_nonempty (db : database) (ar : agent_response) :
  user_exists db (responding_user_id ar) = true -> joined_for db ar <> [].
Proof.
  intros H. apply user_exists_In in H. destruct H as [u [Hu Hid]].
  unfold joined_for.
  destruct (filter (fun u => Nat.eqb (u_id u) (responding_user_id ar)) (users db))
    as [|u0 us] eqn:Eu.
  { assert (Hin : In u (filter (fun u => Nat.eqb (u_id u) (responding_user_id ar))
                               (users db)))
      by (apply filter_In; split; [assumption | now apply Nat.eqb_eq]).
    rewrite Eu in Hin. destruct Hin. }
  simpl.
  destruct (left_join (filter (fun p => Nat.eqb (pr_user_id p) (responding_user_id ar))
                              (profiles db))) as [|p ps] eqn:Ep;
    [now apply left_join_nonempty in Ep|].
  simpl.
  destruct (left_join (filter (fun sr => Nat.eqb (sr_id sr) (ar_request_id ar))
                              (service_requests db))) as [|sr srs] eqn:Es;
    [now apply left_join_nonempty in Es|].
  simpl.
  destruct (left_join (filter (edge_between sr ar) (connections db))) as [|c cs] eqn:Ec;
    [now apply left_join_nonempty in Ec|].
  discriminate.
Qed.

Lemma insert_agent_response_spec (db : database) (rid uid : uuid)
    (ev : match_evaluation) (id : uuid) (db1 : database) :
  insert_agent_response db rid uid ev = Ok id db1 ->
  exists m,
    ev_is_match ev = Some m
    /\ existsb (same_pair rid uid) (agent_responses db) = false
    /\ request_exists db rid = true /\ user_exists db uid = true
    /\ id = uuid_seq db
    /\ users db1 = users db /\ profiles db1 = profiles db
    /\ connections db1 = connections db
    /\ service_requests db1 = service_requests db
    /\ agent_messages db1 = agent_messages db
    /\ agent_responses db1 = agent_responses db ++ [recorded_row id rid uid m ev].
Proof.
  unfold insert_agent_response. intros H.
  destruct (ev_is_match ev) as [m|]; [|discriminate H].
  destruct (existsb _ _); [discriminate H|].
  destruct (request_exists db rid && user_exists db uid) eqn:E; [|discriminate H].
  apply andb_true_iff in E. destruct E as [Er Eu].
  injection H as <- <-. exists m. simpl. auto 12.
Qed.

(** What a successful call leaves behind, in full. *)
Lemma record_agent_response_spec (db : database) (rid uid : uuid)
    (ev : match_evaluation) (id : uuid) (db2 : database) :
  record_agent_response db rid uid ev = Ok id db2 ->
  exists m added,
    ev_is_match ev = Some m
    /\ existsb (same_pair rid uid) (agent_responses db) = false
    /\ request_exists db rid = true /\ user_exists db uid = true
    /\ id = uuid_seq db
    /\ users db2 = users db /\ profiles db2 = profiles db
    /\ connections db2 = connections db
    /\ service_requests db2 = service_requests db
    /\ agent_responses db2 = agent_responses db ++ [recorded_row id rid uid m ev]
    /\ agent_messages db2 = agent_messages db ++ added
    /\ map message_content added
       = map (fun sr => mk_message_values uid (Some (requesting_user_id sr)) response
                          (payload_response id (Some m)) (Some rid))
             (filter (fun sr => Nat.eqb (sr_id sr) rid) (service_requests db)).
Proof.
  unfold record_agent_response. intros H.
  destruct (insert_agent_response db rid uid ev) as [id1 db1|e] eqn:E1;
    [|discriminate H].
  apply insert_agent_response_spec in E1.
  destruct E1 as (m & Hm & Hdup & Hr & Hu & Hid & Hus & Hps & Hcs & Hss & Hms & Hrs).
  match type of H with
  | match insert_agent_messages db1 ?rows with _ => _ end = _ =>
      pose proof (insert_agent_messages_spec rows db1) as Hspec;
      destruct (forallb (message_fk_ok db1) rows);
      [destruct Hspec as (db' & added & Hok & Hsame & Hadd & Hcont)
      | rewrite Hspec in H; discriminate H]
  end.
  rewrite Hok in H. injection H as <- <-.
  destruct Hsame as (Hu' & Hp' & Hc' & Hs' & Hr').
  exists m, added. rewrite Hm, Hss in Hcont.
  repeat split; try congruence.
Qed.

(** X10. The checks of [record_agent_response] in their order: a missing verdict
    raises the NOT NULL violation whatever else holds; otherwise a stored
    response for the pair raises the unique violation, also for an unknown
    request or user; otherwise an unknown request or responder raises the
    foreign-key violation; otherwise, the foreign key of [service_requests]
    being in place, the call succeeds and returns the generated id. *)
Theorem record_agent_response_outcome (db : database) (rid uid : uuid)
    (ev : match_evaluation) :
  requests_reference_users db ->
  match ev_is_match ev with
  | None => record_agent_response db rid uid ev = Raise not_null_violation
  | Some _ =>
      if existsb (same_pair rid uid) (agent_responses db)
      then record_agent_response db rid uid ev = Raise unique_violation
      else if request_exists db rid && user_exists db uid
           then exists db', record_agent_response db rid uid ev = Ok (uuid_seq db) db'
           else record_agent_response db rid uid ev = Raise foreign_key_violation
  end.
Proof.
  intros Hfk. unfold record_agent_response, insert_agent_response.
  destruct (ev_is_match ev) as [m|]; [|reflexivity].
  destruct (existsb _ _); [reflexivity|].
  destruct (request_exists db rid && user_exists db uid) eqn:E; [|reflexivity].
  apply andb_true_iff in E. destruct E as [Er Eu].
  match goal with
  | |- exists _, match insert_agent_messages ?d ?rows with _ => _ end = _ =>
      pose proof (insert_agent_messages_spec rows d) as Hspec;
      assert (Hall : forallb (message_fk_ok d) rows = true)
  end.
  { apply forallb_forall. intros v Hv. apply in_map_iff in Hv.
    destruct Hv as [sr [<- Hsr]]. simpl in Hsr. apply filter_In in Hsr.
    destruct Hsr as [Hsr _].
    unfold message_fk_ok. simpl.
    change (user_exists _ uid) with (user_exists db uid).
    change (user_exists _ (requesting_user_id sr))
      with (user_exists db (requesting_user_id sr)).
    change (request_exists _ rid) with (request_exists db rid).
    now rewrite Eu, Er, (Hfk sr Hsr). }
  rewrite Hall in Hspec. destruct Hspec as (db' & added & -> & _). eauto.
Qed.

Lemma workflow_db_requests : requests_reference_users workflow_db.
Proof. intros sr [<-|[]]. reflexivity. Qed.

Lemma record_agent_response_outcome_witness :
  record_agent_response recorded_db 77 alice
    (mk_match_evaluation None None None None) = Raise not_null_violation
  /\ record_agent_response recorded_db d_request alice
       (mk_match_evaluation (Some true) None None None) = Raise unique_violation
  /\ record_agent_response recorded_db 77 carol
       (mk_match_evaluation (Some true) None None None) = Raise foreign_key_violation.
Proof.
  assert (Hfk : requests_reference_users recorded_db)
    by (intros sr [<-|[]]; reflexivity).
  split; [|split].
  - exact (record_agent_response_outcome recorded_db 77 alice
             (mk_match_evaluation None None None None) Hfk).
  - exact (record_agent_response_outcome recorded_db d_request alice
             (mk_match_evaluation (Some true) None None None) Hfk).
  - exact (record_agent_response_outcome recorded_db 77 carol
             (mk_match_evaluation (Some true) None None None) Hfk).
Defined.

(** X11. A successful call, the request ids being unique, stores one response
    row with the values of the evaluation and logs one [response] message
    from the responder to the requester of the request, carrying the new
    response id and the verdict; users, profiles, connections and requests
    stay as they are. *)
Theorem record_agent_response_effect (db : database) (rid uid : uuid)
    (ev : match_evaluation) (id : uuid) (db' : database) :
  unique_request_ids db ->
  record_agent_response db rid uid ev = Ok id db' ->
  exists m sr msg,
    ev_is_match ev = Some m
    /\ In sr (service_requests db) /\ sr_id sr = rid
    /\ agent_responses db' = agent_responses db ++ [recorded_row id rid uid m ev]
    /\ agent_messages db' = agent_messages db ++ [msg]
    /\ message_content msg
       = mk_message_values uid (Some (requesting_user_id sr)) response
           (payload_response id (Some m)) (Some rid)
    /\ users db' = users db /\ profiles db' = profiles db
    /\ connections db' = connections db
    /\ service_requests db' = service_requests db.
Proof.
  intros Hpk Hok. apply record_agent_response_spec in Hok.
  destruct Hok as (m & added & Hm & _ & Hr & _ & _ & Hu & Hp & Hc & Hs & Hresp
                   & Hmsg & Hcont).
  apply request_exists_In in Hr. destruct Hr as [sr [Hsr Hid]].
  rewrite <- Hid in Hcont.
  rewrite (filter_key_singleton sr_id (service_requests db) sr Hpk Hsr) in Hcont.
  simpl in Hcont.
  destruct added as [|msg [|msg' rest]]; try discriminate Hcont.
  injection Hcont as Hf Ht Hty Hpl Hrq.
  exists m, sr, msg. repeat split; auto.
  unfold message_content. congruence.
Qed.

Lemma record_agent_response_effect_witness :
  exists msg,
    agent_messages recorded_db = [msg]
    /\ message_content msg
       = mk_message_values alice (Some bob) response
           (payload_response 100 (Some true)) (Some d_request).
Proof.
  assert (Hpk : unique_request_ids workflow_db)
    by (repeat constructor; simpl; tauto).
  assert (Hok : record_agent_response workflow_db d_request alice
                  (evaluate_match workflow_db d_request alice)
                = Ok 100%nat recorded_db) by reflexivity.
  destruct (record_agent_response_effect workflow_db d_request alice
              (evaluate_match workflow_db d_request alice) 100%nat recorded_db Hpk Hok)
    as (m & sr & msg & Hm & Hsr & Hid & _ & Hmsg & Hcont & _).
  exists msg. split; [exact Hmsg|].
  destruct Hsr as [<-|[]]. injection Hm as <-. exact Hcont.
Defined.

Lemma ranked_rows_after_insert (db db' : database) (ar : agent_response) (r : uuid) :
  users db' = users db -> profiles db' = profiles db ->
  connections db' = connections db -> service_requests db' = service_requests db ->
  agent_responses db' = agent_responses db ++ [ar] ->
  ranked_rows db' r
  = ranked_rows db r
    ++ map ranked_select (if matching_response r ar then joined_for db ar else []).
Proof.
  intros Hu Hp Hc Hs Hr. unfold ranked_rows.
  rewrite !ranked_from_joined_for, Hr, flat_map_app, filter_app, map_app.
  simpl. rewrite app_nil_r.
  rewrite (joined_for_same db db' ar Hu Hp Hc Hs), joined_for_where.
  f_equal. f_equal. f_equal.
  apply flat_map_ext. intros a. now apply joined_for_same.
Qed.

(** X12. Recording and ranking compose: a recorded positive verdict puts the
    responder into the ranking of that request, with the recorded score,
    skills and explanation; a negative verdict, and any verdict seen from
    another request, leaves the ranking as it was. *)
Theorem record_then_rank (db : database) (rid uid : uuid)
    (ev : match_evaluation) (id : uuid) (db' : database) :
  record_agent_response db rid uid ev = Ok id db' ->
  (forall r, r <> rid \/ ev_is_match ev = Some false ->
             get_ranked_results db' r = get_ranked_results db r)
  /\ (ev_is_match ev = Some true ->
      exists out row,
        get_ranked_results db' rid = Some out /\ In row out
        /\ rm_user_id row = uid
        /\ rm_match_score row = ev_match_score ev
        /\ rm_matched_skills row = ev_matched_skills ev
        /\ rm_explanation row = ev_explanation ev).
Proof.
  intros Hok. apply record_agent_response_spec in Hok.
  destruct Hok as (m & added & Hm & _ & _ & Hex & _ & Hu & Hp & Hc & Hs & Hresp & _).
  pose proof (fun r => ranked_rows_after_insert db db' _ r Hu Hp Hc Hs Hresp) as Hrows.
  split.
  - intros r Hr. unfold get_ranked_results. rewrite Hrows.
    replace (matching_response r (recorded_row id rid uid m ev)) with false.
    + simpl. now rewrite app_nil_r.
    + unfold matching_response. simpl. destruct Hr as [Hr|Hr].
      * apply Nat.eqb_neq in Hr. rewrite Nat.eqb_sym, Hr. reflexivity.
      * rewrite Hm in Hr. injection Hr as ->. now rewrite andb_false_r.
  - intros Ht. rewrite Hm in Ht. injection Ht as ->.
    assert (Hne : joined_for db (recorded_row id rid uid true ev) <> [])
      by (apply joined_for_nonempty; exact Hex).
    destruct (joined_for db (recorded_row id rid uid true ev)) as [|j js] eqn:Ej;
      [congruence|].
    assert (Hj : In j (joined_for db (recorded_row id rid uid true ev)))
      by (rewrite Ej; now left).
    apply joined_for_first in Hj. destruct Hj as (u & p & sr & c & ->).
    set (row := ranked_select (recorded_row id rid uid true ev, u, p, sr, c)).
    assert (Hin : In row (ranked_rows db' rid)).
    { rewrite Hrows. apply in_or_app. right.
      unfold matching_response. simpl. rewrite Nat.eqb_refl. simpl. now left. }
    pose proof (sort_desc_perm (ranked_rows db' rid)) as Hperm.
    apply (Permutation_in _ Hperm) in Hin.
    unfold get_ranked_results.
    destruct (sort_desc (ranked_rows db' rid)) as [|x xs] eqn:Es; [destruct Hin|].
    exists (x :: xs), row. simpl. auto 10.
Qed.

Lemma record_then_rank_witness :
  exists out row,
    get_ranked_results recorded_db d_request = Some out /\ In row out
    /\ rm_user_id row = alice.
Proof.
  assert (Hok : record_agent_response workflow_db d_request alice
                  (evaluate_match workflow_db d_request alice)
                = Ok 100%nat recorded_db) by reflexivity.
  destruct (proj2 (record_then_rank workflow_db d_request alice
                     (evaluate_match workflow_db d_request alice) 100%nat recorded_db Hok)
              eq_refl)
    as (out & row & Hout & Hin & Hid & _).
  exists out, row. auto.
Defined.

(** ** get_ranked_results: one row per matching response *)

Lemma filter_at_most_one {A K : Type} (key : A -> K) (f : A -> bool) (k : K)
    (l : list A) :
  NoDup (map key l) ->
  (forall x, In x l -> f x = true -> key x = k) ->
  (List.length (filter f l) <= 1)%nat.
Proof.
  induction l as [|a t IH]; simpl; intros Hnd Hk; [lia|].
  inversion Hnd as [|? ? Hnot Hnd']; subst.
  assert (IH' : (List.length (filter f t) <= 1)%nat)
    by (apply IH; [assumption | intros x Hx; apply Hk; now right]).
  destruct (f a) eqn:Ea; [|exact IH'].
  destruct (filter f t) as [|y r] eqn:E; [simpl; lia|].
  exfalso. apply Hnot.
  assert (Hy : In y (filter f t)) by (rewrite E; now left).
  apply filter_In in Hy. destruct Hy as [Hy Hfy].
  rewrite (Hk a (or_introl eq_refl) Ea), <- (Hk y (or_intror Hy) Hfy).
  now apply in_map.
Qed.

Lemma left_join_single {A : Type} (l : list A) :
  (List.length l <= 1)%nat -> exists o, left_join l = [o].
Proof.
  destruct l as [|a [|b t]]; simpl; intros H; eauto. lia.
Qed.

Lemma pair_key_sym (a b : uuid) : pair_key a b = pair_key b a.
Proof. unfold pair_key. now rewrite Nat.min_comm, Nat.max_comm. Qed.

Lemma joined_for_single (db : database) (ar : agent_response) :
  unique_user_ids db -> unique_profile_users db -> unique_request_ids db ->
  unique_connection_pairs db ->
  user_exists db (responding_user_id ar) = true ->
  exists u p sr c, joined_for db ar = [(ar, u, p, sr, c)].
Proof.
  intros Hu Hp Hs Hc Hex. apply user_exists_In in Hex. destruct Hex as [u [Hin Hid]].
  unfold joined_for. rewrite <- Hid.
  rewrite (filter_key_singleton u_id (users db) u Hu Hin). simpl.
  rewrite app_nil_r.
  destruct (left_join_single
              (filter (fun p => Nat.eqb (pr_user_id p) (u_id u)) (profiles db)))
    as [p ->].
  { apply (filter_at_most_one pr_user_id _ (u_id u)); [exact Hp|].
    intros x _ Hx. now apply Nat.eqb_eq. }
  simpl. rewrite app_nil_r.
  destruct (left_join_single
              (filter (fun sr => Nat.eqb (sr_id sr) (ar_request_id ar))
                      (service_requests db)))
    as [sr ->].
  { apply (filter_at_most_one sr_id _ (ar_request_id ar)); [exact Hs|].
    intros x _ Hx. now apply Nat.eqb_eq. }
  simpl. rewrite app_nil_r.
  destruct (left_join_single (filter (edge_between sr ar) (connections db)))
    as [c ->].
  { destruct sr as [s|].
    - apply (filter_at_most_one (fun c => pair_key (user_a_id c) (user_b_id c)) _
               (pair_key (requesting_user_id s) (responding_user_id ar)));
        [exact Hc|].
      intros x _ Hx. apply edge_between_links in Hx.
      destruct Hx as [[-> ->]|[-> ->]]; [reflexivity | apply pair_key_sym].
    - apply (filter_at_most_one (fun c => pair_key (user_a_id c) (user_b_id c)) _
               (pair_key 0 0)); [exact Hc|].
      intros x _ Hx. discriminate Hx. }
  simpl. eauto.
Qed.

Lemma ranked_rows_ids (db : database) (rid : uuid) :
  unique_user_ids db -> unique_profile_users db -> unique_request_ids db ->
  unique_connection_pairs db -> responses_reference db ->
  map rm_user_id (ranked_rows db rid)
  = map responding_user_id (filter (matching_response rid) (agent_responses db)).
Proof.
  intros Hu Hp Hs Hc Href. unfold ranked_rows. rewrite ranked_from_joined_for.
  assert (Hall : forall ar, In ar (agent_responses db) ->
                            user_exists db (responding_user_id ar) = true)
    by (intros ar Har; apply Href; exact Har).
  induction (agent_responses db) as [|ar t IH]; simpl; [reflexivity|].
  rewrite filter_app, !map_app, joined_for_where,
    IH by (intros a Ha; apply Hall; now right).
  destruct (joined_for_single db ar Hu Hp Hs Hc (Hall ar (or_introl eq_refl)))
    as (u & p & sr & c & ->).
  now destruct (matching_response rid ar).
Qed.

(** X13. With the keys and foreign keys of the schema in place, the ranking of a
    request holds exactly one row for each response to it whose verdict is
    positive, and no candidate twice. *)
Theorem ranked_results_complete (db : database) (rid : uuid)
    (res : option (list ranked_match)) :
  unique_user_ids db -> unique_profile_users db -> unique_request_ids db ->
  unique_connection_pairs db -> responses_reference db ->
  unique_response_keys db ->
  ranked_results db rid res ->
  Permutation (map rm_user_id (coalesce res []))
              (map responding_user_id
                   (filter (matching_response rid) (agent_responses db)))
  /\ NoDup (map rm_user_id (coalesce res [])).
Proof.
  intros Hu Hp Hs Hc Href Hkeys [out [[Hperm _] ->]].
  rewrite sql_agg_coalesce.
  assert (Hids : Permutation (map rm_user_id out)
                   (map responding_user_id
                        (filter (matching_response rid) (agent_responses db)))).
  { rewrite <- (ranked_rows_ids db rid Hu Hp Hs Hc Href).
    apply Permutation_map. now apply Permutation_sym. }
  split; [exact Hids|].
  apply (Permutation_NoDup (Permutation_sym Hids)).
  unfold unique_response_keys in Hkeys. clear - Hkeys.
  induction (agent_responses db) as [|ar t IH]; simpl; [constructor|].
  inversion Hkeys as [|? ? Hnot Hnd]; subst.
  destruct (matching_response rid ar) eqn:E; [|now apply IH].
  simpl. constructor; [|now apply IH].
  intros Hin. apply in_map_iff in Hin. destruct Hin as [a [Ha Hin]].
  apply filter_In in Hin. destruct Hin as [Hin Hm].
  apply Hnot. apply in_map_iff. exists a. split; [|assumption].
  unfold matching_response in *. apply andb_true_iff in E, Hm.
  destruct E as [E _], Hm as [Hm _]. apply Nat.eqb_eq in E, Hm. congruence.
Qed.

Lemma answered_db_schema :
  unique_user_ids answered_db /\ unique_profile_users answered_db
  /\ unique_request_ids answered_db /\ unique_connection_pairs answered_db
  /\ responses_reference answered_db /\ unique_response_keys answered_db.
Proof.
  unfold unique_user_ids, unique_profile_users, unique_request_ids,
    unique_connection_pairs, unique_response_keys.
  repeat split; try (simpl; repeat constructor; simpl; intuition discriminate).
  all: simpl in H; destruct H as [<-|[<-|[]]]; reflexivity.
Qed.

Lemma ranked_results_complete_witness :
  Permutation (map rm_user_id [answered_alice_row]) [alice]
  /\ NoDup (map rm_user_id [answered_alice_row]).
Proof.
  destruct answered_db_schema as (Hu & Hp & Hs & Hc & Href & Hk).
  exact (ranked_results_complete answered_db d_request (Some [answered_alice_row])
           Hu Hp Hs Hc Href Hk answered_db_ranking).
Defined.

(** X14. When the recorded match score and the trust scores of the connections
    lie between 0 and 1, so does the final score of every ranked row. *)
Theorem final_score_bounds (db : database) (rid : uuid)
    (out : list ranked_match) (r : ranked_match) (m : Q) :
  (forall c t, In c (connections db) -> c_trust_score c = Some t -> (0 <= t <= 1)%Q) ->
  ranked_results db rid (Some out) -> In r out ->
  rm_match_score r = Some m -> (0 <= m <= 1)%Q ->
  exists f, rm_final_score r = Some f /\ (0 <= f <= 1)%Q.
Proof.
  intros Htrust Hres Hr Hm [Hm0 Hm1].
  apply ranked_results_Some in Hres. destruct Hres as [Hperm _].
  apply (Permutation_in _ (Permutation_sym Hperm)) in Hr.
  apply ranked_rows_In in Hr.
  destruct Hr as (ar & u & p & sr & c & _ & _ & _ & _ & Hc & _ & _ & ->).
  simpl in *. rewrite Hm. simpl. eexists. split; [reflexivity|].
  assert (Ht : (0 <= trust_of c <= 1)%Q).
  { apply left_join_In in Hc. unfold trust_of. destruct c as [c|]; simpl.
    - destruct Hc as [Hin _]. destruct (c_trust_score c) as [t|] eqn:E.
      + exact (Htrust c t Hin E).
      + split; discriminate.
    - split; discriminate. }
  destruct Ht as [Ht0 Ht1]. split.
  - apply (Qle_trans _ (0 * (7 # 10) + 0 * (3 # 10))); [discriminate|].
    apply Qplus_le_compat; apply Qmult_le_compat_r; auto; discriminate.
  - apply (Qle_trans _ (1 * (7 # 10) + 1 * (3 # 10))); [|discriminate].
    apply Qplus_le_compat; apply Qmult_le_compat_r; auto; discriminate.
Qed.

Lemma final_score_bounds_witness :
  exists f, rm_final_score answered_alice_row = Some f /\ (0 <= f <= 1)%Q.
Proof.
  apply (final_score_bounds answered_db d_request [answered_alice_row]
           answered_alice_row (2 # 2)).
  - intros c t Hc Ht. simpl in Hc.
    destruct Hc as [<-|[<-|[<-|[]]]]; injection Ht as <-; split; discriminate.
  - exact answered_db_ranking.
  - left; reflexivity.
  - reflexivity.
  - split; discriminate.
Defined.

(** ** get_user_profile *)

Lemma hd_error_left_join {A : Type} (l : list A) :
  hd_error (left_join l) = Some (hd_error l).
Proof. now destruct l. Qed.

Lemma hd_error_filter {A : Type} (f : A -> bool) (l : list A) :
  hd_error (filter f l) = find f l.
Proof.
  induction l as [|a t IH]; simpl; [reflexivity|]. now destruct (f a).
Qed.

Lemma find_profile_hd (db : database) (id : uuid) :
  hd_error (filter (fun p => Nat.eqb id (pr_user_id p)) (profiles db))
  = find_profile db id.
Proof.
  unfold find_profile. rewrite hd_error_filter.
  induction (profiles db) as [|p l IHl]; simpl; [reflexivity|].
  rewrite (Nat.eqb_sym id (pr_user_id p)), IHl. reflexivity.
Qed.

Lemma get_user_profile_find (db : database) (id : uuid) :
  get_user_profile db id
  = option_map
      (fun u => mk_user_profile (u_id u) (u_name u) (u_email u)
                  (mk_profile_object (bind_opt (find_profile db (u_id u)) title)
                                     (option_map skills (find_profile db (u_id u)))))
      (find (fun u => Nat.eqb (u_id u) id) (users db)).
Proof.
  unfold get_user_profile, user_profile_from.
  induction (users db) as [|u t IH]; simpl; [reflexivity|].
  rewrite filter_app, map_app.
  assert (Hrows : forall l : list (option profile),
            filter (fun j => Nat.eqb (u_id (fst j)) id) (map (fun p => (u, p)) l)
            = if Nat.eqb (u_id u) id then map (fun p => (u, p)) l else []).
  { induction l as [|p l IHl]; simpl; [now destruct (Nat.eqb _ _)|].
    rewrite IHl. now destruct (Nat.eqb (u_id u) id). }
  rewrite Hrows. destruct (Nat.eqb (u_id u) id); [|exact IH].
  set (ps := filter (fun p => Nat.eqb (u_id u) (pr_user_id p)) (profiles db)).
  assert (Hhd : hd_error ps = find_profile db (u_id u))
    by apply find_profile_hd.
  cbn [option_map]. rewrite <- Hhd.
  pose proof (hd_error_left_join ps) as Hl.
  destruct (left_join ps) as [|o os]; [discriminate Hl|].
  simpl in Hl. injection Hl as ->. reflexivity.
Qed.

(** X15. [get_user_profile] returns NULL exactly for a user id that references
    no row; a user without a profile row still gets an object, with its
    profile keys null. *)
Theorem get_user_profile_null_iff (db : database) (id : uuid) :
  (get_user_profile db id = None <-> user_exists db id = false)
  /\ (forall r, get_user_profile db id = Some r -> find_profile db id = None ->
                up_user_id r = id /\ up_profile r = mk_profile_object None None).
Proof.
  rewrite get_user_profile_find. unfold user_exists. split.
  - induction (users db) as [|u t IH]; simpl; [tauto|].
    destruct (Nat.eqb (u_id u) id); simpl; [split; discriminate | exact IH].
  - intros r Hr Hnone.
    destruct (find _ (users db)) as [u|] eqn:E; [|discriminate Hr].
    apply find_some in E. destruct E as [_ E]. apply Nat.eqb_eq in E.
    injection Hr as <-. simpl. rewrite E, Hnone. auto.
Qed.

Lemma get_user_profile_null_iff_witness :
  get_user_profile sample_db 99 = None
  /\ option_map up_profile (get_user_profile lonely_db dave)
     = Some (mk_profile_object None None).
Proof.
  split.
  - apply (proj1 (get_user_profile_null_iff sample_db 99)). reflexivity.
  - destruct (get_user_profile lonely_db dave) as [r|] eqn:E; [|discriminate E].
    simpl. f_equal.
    apply (proj2 (get_user_profile_null_iff lonely_db dave) r E). reflexivity.
Defined.

(** X16. The profile tool and the agent read the same row: when
    [get_user_profile] reports a skills array for a user, that array is the
    one of the user's profile row, and [evaluate_match] judges the user on
    exactly these skills. *)
Theorem get_user_profile_evaluated (db : database) (id : uuid) (r : user_profile)
    (held : list string) :
  get_user_profile db id = Some r ->
  po_skills (up_profile r) = Some held ->
  up_user_id r = id
  /\ (exists p, find_profile db id = Some p /\ skills p = held
                /\ po_title (up_profile r) = title p)
  /\ forall rid,
       evaluate_match db rid id
       = evaluate (bind_opt (find_request db rid) sq_skills) (Some held).
Proof.
  rewrite get_user_profile_find. intros Hr Hheld.
  destruct (find _ (users db)) as [u|] eqn:E; [|discriminate Hr].
  apply find_some in E. destruct E as [_ E]. apply Nat.eqb_eq in E.
  injection Hr as <-. simpl in *. rewrite E in *.
  unfold evaluate_match.
  destruct (find_profile db id) as [p|]; [|discriminate Hheld].
  simpl in *. injection Hheld as <-.
  split; [reflexivity|]. split; [exists p; auto | reflexivity].
Qed.

Lemma get_user_profile_evaluated_witness :
  evaluate_match workflow_db d_request alice
  = evaluate (Some ["UI/UX Design"; "Figma"])
      (Some ["UI/UX Design"; "Figma"; "Design Systems"; "User Research"]).
Proof.
  destruct (get_user_profile workflow_db alice) as [r|] eqn:E; [|discriminate E].
  assert (Hheld : po_skills (up_profile r)
                  = Some ["UI/UX Design"; "Figma"; "Design Systems"; "User Research"]).
  { injection E as <-. reflexivity. }
  exact (proj2 (proj2 (get_user_profile_evaluated workflow_db alice r _ E Hheld))
           d_request).
Defined.

(** ** INSERT INTO connections *)

Lemma same_endpoints_key (a b : uuid) (c : connection) :
  same_endpoints a b c = true <-> pair_key (user_a_id c) (user_b_id c) = pair_key a b.
Proof.
  unfold same_endpoints, pair_key. rewrite andb_true_iff, !Nat.eqb_eq.
  split; [intros [-> ->]; reflexivity | intros H; injection H; auto].
Qed.

Lemma insert_connection_spec (db : database) (a b : uuid) (t : option Q)
    (db' : database) :
  insert_connection db a b t = inr db' ->
  a <> b
  /\ existsb (same_endpoints a b) (connections db) = false
  /\ user_exists db a = true /\ user_exists db b = true
  /\ connections db' = connections db ++ [mk_connection a b t]
  /\ users db' = users db.
Proof.
  unfold insert_connection. intros H.
  destruct (Nat.eqb_spec a b) as [E|E]; [discriminate H|].
  destruct (existsb _ _); [discriminate H|].
  destruct (user_exists db a && user_exists db b) eqn:Eu; [|discriminate H].
  apply andb_true_iff in Eu. injection H as <-. simpl. tauto.
Qed.

(** X17. An accepted insert keeps the table's constraints: no row joins a user
    to itself, no two rows join the same two users in either order, and
    every endpoint references a user. *)
Theorem insert_connection_keeps_constraints (db : database) (a b : uuid)
    (t : option Q) (db' : database) :
  no_self_connection db -> unique_connection_pairs db ->
  connections_reference_users db ->
  insert_connection db a b t = inr db' ->
  no_self_connection db' /\ unique_connection_pairs db'
  /\ connections_reference_users db'.
Proof.
  intros Hself Huniq Hfk Hok. apply insert_connection_spec in Hok.
  destruct Hok as (Hab & Hdup & Ha & Hb & Hc & Hu).
  split; [|split].
  - intros c Hin. rewrite Hc in Hin. apply in_app_or in Hin.
    destruct Hin as [Hin|[<-|[]]]; [now apply Hself | exact Hab].
  - unfold unique_connection_pairs in *. rewrite Hc, map_app. simpl.
    eapply Permutation_NoDup; [apply Permutation_cons_append|].
    constructor; [|exact Huniq].
    intros Hin. apply in_map_iff in Hin. destruct Hin as [c [Hk Hin]].
    apply same_endpoints_key in Hk.
    assert (existsb (same_endpoints a b) (connections db) = true)
      by (apply existsb_exists; eauto).
    congruence.
  - intros c Hin. unfold user_exists. rewrite Hu.
    rewrite Hc in Hin. apply in_app_or in Hin.
    destruct Hin as [Hin|[<-|[]]]; [now apply Hfk | simpl; auto].
Qed.

Lemma sample_db_connections :
  no_self_connection sample_db /\ unique_connection_pairs sample_db.
Proof.
  split.
  - intros c Hc. simpl in Hc.
    destruct Hc as [<-|[<-|[<-|[]]]]; discriminate.
  - unfold unique_connection_pairs. simpl.
    repeat constructor; simpl; intuition discriminate.
Qed.

Lemma insert_connection_keeps_constraints_witness :
  exists db', insert_connection lonely_db dave alice (Some 1%Q) = inr db'
              /\ unique_connection_pairs db'.
Proof.
  eexists. split; [reflexivity|].
  refine (proj1 (proj2 (insert_connection_keeps_constraints lonely_db dave alice
                          (Some 1%Q) _ _ _ _ eq_refl))).
  - exact (proj1 sample_db_connections).
  - exact (proj2 sample_db_connections).
  - intros c Hc. simpl in Hc.
    destruct Hc as [<-|[<-|[<-|[]]]]; split; reflexivity.
Defined.

(** X18. A row from a user to itself is refused by the CHECK before anything
    else is looked at; once two users are connected, a second row for them
    is refused by the unique index in either order of the endpoints and
    whatever trust it carries. *)
Theorem insert_connection_rejects (db : database) (a b : uuid) (t : option Q) :
  insert_connection db a a t = inl check_violation
  /\ forall db', insert_connection db a b t = inr db' ->
       forall t', insert_connection db' a b t' = inl pair_unique_violation
                  /\ insert_connection db' b a t' = inl pair_unique_violation.
Proof.
  split.
  - unfold insert_connection. now rewrite Nat.eqb_refl.
  - intros db' Hok t'. apply insert_connection_spec in Hok.
    destruct Hok as (Hab & _ & _ & _ & Hc & _).
    assert (Hex : forall x y, pair_key x y = pair_key a b ->
                    existsb (same_endpoints x y) (connections db') = true).
    { intros x y Hk. apply existsb_exists. exists (mk_connection a b t). split.
      - rewrite Hc. apply in_or_app. right. now left.
      - apply same_endpoints_key. simpl. now symmetry. }
    unfold insert_connection.
    rewrite (Hex a b eq_refl), (Hex b a (pair_key_sym b a)).
    destruct (Nat.eqb_spec a b) as [E|E]; [contradiction|].
    destruct (Nat.eqb_spec b a) as [E'|E']; [congruence|]. auto.
Qed.

Lemma insert_connection_rejects_witness :
  exists db',
    insert_connection lonely_db dave alice None = inr db'
    /\ insert_connection db' alice dave (Some 1%Q) = inl pair_unique_violation.
Proof.
  eexists. split; [reflexivity|].
  apply (proj2 (insert_connection_rejects lonely_db dave alice None) _ eq_refl).
Defined.

Lemma get_connections_after_insert (db db' : database) (c : connection) (p : uuid) :
  users db' = users db -> connections db' = connections db ++ [c] ->
  get_connections db' p
  = get_connections db p
    ++ (if touches p c
        then map (fun u => mk_connection_info (other_end p c) (u_name u) (c_trust_score c))
                 (filter (fun u => Nat.eqb (u_id u) (other_end p c)) (users db))
        else []).
Proof.
  intros Hu Hc. unfold get_connections.
  rewrite !sql_agg_coalesce, Hu, Hc, filter_app, flat_map_app. simpl.
  destruct (touches p c); simpl; now rewrite ?app_nil_r.
Qed.

(** X19. Insert and lookup round trip: after an accepted insert the
    connections of each of the two users are the former ones and the other
    user, by name and with the inserted trust score; the connections of all
    other users are the former ones.  This holds in whatever order the
    lists are taken. *)
Theorem insert_connection_listed (db : database) (a b : uuid) (t : option Q)
    (db' : database) :
  unique_user_ids db ->
  insert_connection db a b t = inr db' ->
  exists ua ub,
    In ua (users db) /\ u_id ua = a /\ In ub (users db) /\ u_id ub = b
    /\ (forall before after,
          Permutation (get_connections db a) before ->
          Permutation (get_connections db' a) after ->
          Permutation after (mk_connection_info b (u_name ub) t :: before))
    /\ (forall before after,
          Permutation (get_connections db b) before ->
          Permutation (get_connections db' b) after ->
          Permutation after (mk_connection_info a (u_name ua) t :: before))
    /\ (forall p before after, p <> a -> p <> b ->
          Permutation (get_connections db p) before ->
          Permutation (get_connections db' p) after ->
          Permutation after before).
Proof.
  intros Hpk Hok. apply insert_connection_spec in Hok.
  destruct Hok as (Hab & _ & Ha & Hb & Hc & Hu).
  apply user_exists_In in Ha, Hb.
  destruct Ha as [ua [Hua Hida]], Hb as [ub [Hub Hidb]].
  exists ua, ub. repeat split; auto.
  - intros before after Hbefore Hafter.
    rewrite <- Hafter, <- Hbefore.
    rewrite (get_connections_after_insert db db' _ a Hu Hc).
    unfold touches, other_end. simpl. rewrite Nat.eqb_refl. simpl.
    rewrite <- Hidb, (filter_key_singleton u_id (users db) ub Hpk Hub). simpl.
    apply Permutation_sym, Permutation_cons_append.
  - intros before after Hbefore Hafter.
    rewrite <- Hafter, <- Hbefore.
    rewrite (get_connections_after_insert db db' _ b Hu Hc).
    unfold touches, other_end. simpl.
    destruct (Nat.eqb_spec a b) as [E|E]; [contradiction|].
    rewrite Nat.eqb_refl. simpl.
    rewrite <- Hida, (filter_key_singleton u_id (users db) ua Hpk Hua). simpl.
    apply Permutation_sym, Permutation_cons_append.
  - intros p before after Hpa Hpb Hbefore Hafter.
    rewrite <- Hafter, <- Hbefore.
    rewrite (get_connections_after_insert db db' _ p Hu Hc).
    unfold touches. simpl.
    destruct (Nat.eqb_spec a p) as [E|E]; [congruence|].
    destruct (Nat.eqb_spec b p) as [E'|E']; [congruence|].
    simpl. now rewrite app_nil_r.
Qed.

Lemma insert_connection_listed_witness :
  exists db',
    insert_connection lonely_db dave alice (Some (8 # 10)) = inr db'
    /\ Permutation (get_connections db' alice)
         [mk_connection_info dave "Dave Newcomer" (Some (8 # 10));
          mk_connection_info bob "Bob Developer" (Some (9 # 10));
          mk_connection_info carol "Carol Product Manager" (Some (95 # 100))].
Proof.
  eexists. split; [reflexivity|].
  assert (Hpk : unique_user_ids lonely_db).
  { unfold unique_user_ids. simpl. repeat constructor; simpl; intuition discriminate. }
  destruct (insert_connection_listed lonely_db dave alice (Some (8 # 10)) _ Hpk eq_refl)
    as (ua & ub & Hua & Hid & _ & _ & _ & Hb & _).
  assert (Hname : u_name ua = "Dave Newcomer").
  { destruct Hua as [<-|[<-|[<-|[<-|[]]]]]; try discriminate Hid. reflexivity. }
  rewrite <- Hname.
  apply (Hb (get_connections lonely_db alice)); apply Permutation_refl.
Defined.

(** ** References are kept *)

Lemma insert_agent_messages_checked (rows : list message_values)
    (db db' : database) :
  insert_agent_messages db rows = Ok tt db' ->
  same_but_messages db db'
  /\ exists added,
       agent_messages db' = agent_messages db ++ added
       /\ forall m, In m added -> message_fk_ok db (message_content m) = true.
Proof.
  intros Hok. pose proof (insert_agent_messages_spec rows db) as H.
  destruct (forallb (message_fk_ok db) rows) eqn:E; [|congruence].
  destruct H as (db1 & added & Hok1 & Hsame & Hm & Hc).
  rewrite Hok1 in Hok. injection Hok as <-.
  split; [exact Hsame|]. exists added. split; [exact Hm|].
  intros m Hin. rewrite forallb_forall in E. apply E.
  rewrite <- Hc. now apply in_map.
Qed.

Lemma references_transfer (db db' : database) (added : list agent_message) :
  users db' = users db -> service_requests db' = service_requests db ->
  agent_messages db' = agent_messages db ++ added ->
  (forall m, In m added -> message_fk_ok db (message_content m) = true) ->
  messages_reference db -> messages_reference db'.
Proof.
  intros Hu Hs Hm Hadd Href m Hin.
  rewrite (message_fk_ok_same db db' _ Hu Hs).
  rewrite Hm in Hin. apply in_app_or in Hin. destruct Hin; auto.
Qed.

(** X20. The stored functions leave no dangling reference: when every response
    and every logged message references existing users and requests, the
    same holds after a successful [record_agent_response] and after a
    successful [broadcast_request]. *)
Theorem references_kept (db : database) :
  responses_reference db -> messages_reference db ->
  (forall rid uid ev id db',
     record_agent_response db rid uid ev = Ok id db' ->
     responses_reference db' /\ messages_reference db')
  /\ (forall p rid v db',
        broadcast_request db p rid = Ok v db' ->
        responses_reference db' /\ messages_reference db').
Proof.
  intros Hresp Hmsg. split.
  - intros rid uid ev id db' Hok. unfold record_agent_response in Hok.
    destruct (insert_agent_response db rid uid ev) as [id1 db1|e] eqn:E1;
      [|discriminate Hok].
    apply insert_agent_response_spec in E1.
    destruct E1 as (m & _ & _ & Hr & Hu & _ & Hus & _ & _ & Hss & Hms & Hrs).
    destruct (insert_agent_messages db1 _) as [[] db2|e] eqn:E2; [|discriminate Hok].
    injection Hok as _ <-.
    apply insert_agent_messages_checked in E2.
    destruct E2 as ((Hu2 & _ & _ & Hs2 & Hr2) & added & Hadd & Hfk).
    split.
    + intros ar Hin. unfold request_exists, user_exists.
      rewrite Hu2, Hs2, Hus, Hss. rewrite Hr2, Hrs in Hin.
      apply in_app_or in Hin. destruct Hin as [Hin|[<-|[]]]; [now apply Hresp|].
      simpl. auto.
    + apply (references_transfer db db2 added);
        [congruence | congruence | congruence | | exact Hmsg].
      intros x Hx. rewrite <- (message_fk_ok_same db db1 _ Hus Hss). now apply Hfk.
  - intros p rid v db' Hok. unfold broadcast_request in Hok.
    destruct (insert_agent_messages db _) as [[] db2|e] eqn:E2; [|discriminate Hok].
    injection Hok as _ <-.
    apply insert_agent_messages_checked in E2.
    destruct E2 as ((Hu2 & _ & _ & Hs2 & Hr2) & added & Hadd & Hfk).
    split.
    + intros ar Hin. unfold request_exists, user_exists.
      rewrite Hu2, Hs2. rewrite Hr2 in Hin. now apply Hresp.
    + now apply (references_transfer db db2 added).
Qed.

Lemma references_kept_witness :
  responses_reference recorded_db /\ messages_reference recorded_db.
Proof.
  assert (Hr : responses_reference workflow_db) by (intros ar []).
  assert (Hm : messages_reference workflow_db) by (intros m []).
  exact (proj1 (references_kept workflow_db Hr Hm) d_request alice
           (evaluate_match workflow_db d_request alice) 100%nat recorded_db eq_refl).
Defined.

(** ** The profile progress indicator *)

Lemma completedCount_cases (profile : profile_field -> profile_value) :
  completedCount profile
  = (Nat.b2n (isComplete (profile f_title)) + Nat.b2n (isComplete (profile f_skills))
     + Nat.b2n (isComplete (profile f_experience_years))
     + Nat.b2n (isComplete (profile f_availability))
     + Nat.b2n (isComplete (profile f_location))
     + Nat.b2n (isComplete (profile f_bio)))%nat.
Proof.
  unfold completedCount, fields. simpl.
  destruct (isComplete (profile f_title)), (isComplete (profile f_skills)),
    (isComplete (profile f_experience_years)), (isComplete (profile f_availability)),
    (isComplete (profile f_location)), (isComplete (profile f_bio)); reflexivity.
Qed.

(** X21. The completion shown to the user is a whole percentage between 0 and
    100; it is 100 exactly when each of the six fields is present, not null
    and, if an array, not empty, and 0 exactly when none is. *)
Theorem percentage_range (profile : profile_field -> profile_value) :
  (0 <= percentage profile <= 100)%Z
  /\ (percentage profile = 100%Z <-> forall f, isComplete (profile f) = true)
  /\ (percentage profile = 0%Z <-> forall f, isComplete (profile f) = false).
Proof.
  unfold percentage. rewrite completedCount_cases.
  destruct (isComplete (profile f_title)) eqn:E1,
           (isComplete (profile f_skills)) eqn:E2,
           (isComplete (profile f_experience_years)) eqn:E3,
           (isComplete (profile f_availability)) eqn:E4,
           (isComplete (profile f_location)) eqn:E5,
           (isComplete (profile f_bio)) eqn:E6;
    (split; [vm_compute; split; discriminate|]);
    (split; (split;
       [ intros H; try (vm_compute in H; discriminate H);
         intros f; destruct f; assumption
       | intros H;
         try reflexivity;
         first [ pose proof (H f_title) as H'; congruence
               | pose proof (H f_skills) as H'; congruence
               | pose proof (H f_experience_years) as H'; congruence
               | pose proof (H f_availability) as H'; congruence
               | pose proof (H f_location) as H'; congruence
               | pose proof (H f_bio) as H'; congruence ] ])).
Qed.

Lemma percentage_range_witness :
  percentage sparse_profile = 17%Z /\ percentage (fun _ => pv_other) = 100%Z.
Proof.
  split; [reflexivity|].
  apply (proj1 (proj2 (percentage_range (fun _ => pv_other)))). reflexivity.
Defined.

(** ** search_profiles *)

Lemma jsonb_exists_any_spec (held wanted : list string) :
  jsonb_exists_any held wanted = true <-> exists s, In s wanted /\ In s held.
Proof.
  unfold jsonb_exists_any. rewrite existsb_exists.
  split; intros [s [Hw Hh]]; exists s; split; auto; now apply sql_in_In.
Qed.

Lemma firstn_In {A : Type} (n : nat) (l : list A) (x : A) :
  In x (firstn n l) -> In x l.
Proof.
  revert n. induction l as [|a t IH]; intros [|n]; simpl; try tauto.
  intros [H|H]; [now left | right; eauto].
Qed.

Lemma StronglySorted_firstn {A : Type} (R : A -> A -> Prop) (n : nat) (l : list A) :
  StronglySorted R l -> StronglySorted R (firstn n l).
Proof.
  revert n. induction l as [|a t IH]; intros [|n] Hs; simpl; try constructor.
  - apply IH. now inversion Hs.
  - inversion Hs as [|? ? _ Hall]; subst. rewrite Forall_forall in *.
    intros x Hx. apply Hall. eapply firstn_In; eassumption.
Qed.

Lemma StronglySorted_map_on {A B : Type} (R : A -> A -> Prop) (R' : B -> B -> Prop)
    (P : A -> Prop) (f : A -> B) (l : list A) :
  (forall a b, P a -> P b -> R a b -> R' (f a) (f b)) ->
  (forall x, In x l -> P x) ->
  StronglySorted R l -> StronglySorted R' (map f l).
Proof.
  intros HR. induction l as [|a t IH]; intros HP Hs; simpl; [constructor|].
  inversion Hs as [|? ? Hs' Hall]; subst. constructor.
  - apply IH; [intros x Hx; apply HP; now right | assumption].
  - rewrite Forall_forall in *. intros y Hy. apply in_map_iff in Hy.
    destruct Hy as [x [<- Hx]]. apply HR; [apply HP; now left | apply HP; now right|].
    now apply Hall.
Qed.

Lemma sql_limit_Some {A : Type} (p_limit : option Z) (l out : list A) :
  sql_limit p_limit l = Some out ->
  match p_limit with
  | None => out = l
  | Some z => (0 <= z)%Z /\ out = firstn (Z.to_nat z) l
  end.
Proof.
  unfold sql_limit. destruct p_limit as [z|]; [|congruence].
  destruct (Z.ltb_spec z 0) as [Hz|Hz]; [discriminate|].
  intros H. injection H as <-. auto.
Qed.

Section SearchProperties.

Variable vector : Type.
Variable embedding : profile -> option vector.
Variable cosine_distance : vector -> vector -> Q.

Lemma search_rows_In (db : database) (q : vector) (p_skills : option (list string))
    (d : Q) (h : search_hit) :
  In (d, h) (search_rows vector embedding cosine_distance db q p_skills)
  <-> exists p u e,
        In p (profiles db) /\ In u (users db) /\ u_id u = pr_user_id p
        /\ embedding p = Some e
        /\ match p_skills with
           | None => True
           | Some wanted => jsonb_exists_any (skills p) wanted = true
           end
        /\ d = cosine_distance e q
        /\ h = mk_search_hit (u_id u) (u_name u) (title p) (skills p) (1 - d)%Q.
Proof.
  unfold search_rows, search_from. rewrite in_flat_map. split.
  - intros [[p u] [Hj Hsel]]. apply filter_In in Hj. destruct Hj as [Hj Hw].
    apply in_flat_map in Hj. destruct Hj as [p' [Hp Hj]].
    apply in_map_iff in Hj. destruct Hj as [u' [Heq Hu]].
    injection Heq as -> ->. apply filter_In in Hu. destruct Hu as [Hu Hid].
    apply Nat.eqb_eq in Hid.
    unfold search_where, search_select in *. simpl in *.
    destruct (embedding p) as [e|] eqn:He; [|destruct Hsel].
    destruct Hsel as [Hsel|[]]. injection Hsel as <- <-.
    exists p, u, e. repeat split; auto. destruct p_skills; auto.
  - intros (p & u & e & Hp & Hu & Hid & He & Hsk & -> & ->).
    exists (p, u). split.
    + apply filter_In. split.
      * apply in_flat_map. exists p. split; [assumption|].
        apply in_map_iff. exists u. split; [reflexivity|].
        apply filter_In. split; [assumption | now apply Nat.eqb_eq].
      * unfold search_where. simpl. rewrite He. destruct p_skills; auto.
    + unfold search_select. simpl. rewrite He. now left.
Qed.

Lemma search_allowed_In (db : database) (q : vector)
    (p_skills : option (list string)) (p_limit : option Z) (out : list search_hit)
    (h : search_hit) :
  search_allowed vector embedding cosine_distance db q p_skills p_limit out ->
  In h out ->
  exists d, In (d, h) (search_rows vector embedding cosine_distance db q p_skills).
Proof.
  intros (sorted & missed & Hperm & _ & Hlim) Hin. apply sql_limit_Some in Hlim.
  assert (Hmap : In h (map snd sorted)).
  { destruct p_limit as [z|]; [destruct Hlim as [_ ->] | now subst].
    eapply firstn_In; eassumption. }
  apply in_map_iff in Hmap. destruct Hmap as [[d h'] [Heq Hs]]. simpl in Heq. subst h'.
  exists d. apply (Permutation_in _ (Permutation_sym Hperm)).
  apply in_or_app. now left.
Qed.

(** X22. Every hit of a search stands for a profile that has an embedding,
    joined with its user, and reports one minus the distance to the query
    as similarity; when a skills array is given, the profile holds at least
    one of its strings, so an empty array finds nobody. *)
Theorem search_profiles_hits (db : database) (q : vector)
    (p_skills : option (list string)) (p_limit : option Z) (out : list search_hit) :
  search_allowed vector embedding cosine_distance db q p_skills p_limit out ->
  (forall h, In h out ->
     exists p u e,
       In p (profiles db) /\ In u (users db) /\ u_id u = pr_user_id p
       /\ embedding p = Some e
       /\ h = mk_search_hit (u_id u) (u_name u) (title p) (skills p)
                (1 - cosine_distance e q)%Q
       /\ forall wanted, p_skills = Some wanted ->
                         exists s, In s wanted /\ In s (sh_skills h))
  /\ (p_skills = Some [] -> out = []).
Proof.
  intros Hal.
  assert (Hhit : forall h, In h out ->
     exists p u e,
       In p (profiles db) /\ In u (users db) /\ u_id u = pr_user_id p
       /\ embedding p = Some e
       /\ h = mk_search_hit (u_id u) (u_name u) (title p) (skills p)
                (1 - cosine_distance e q)%Q
       /\ forall wanted, p_skills = Some wanted ->
                         exists s, In s wanted /\ In s (sh_skills h)).
  { intros h Hin. destruct (search_allowed_In db q p_skills p_limit out h Hal Hin)
      as [d Hd].
    apply search_rows_In in Hd.
    destruct Hd as (p & u & e & Hp & Hu & Hid & He & Hsk & -> & ->).
    exists p, u, e. repeat split; auto.
    intros wanted ->. simpl. now apply jsonb_exists_any_spec. }
  split; [exact Hhit|].
  intros ->. destruct out as [|h t]; [reflexivity|].
  destruct (Hhit h (or_introl eq_refl)) as (p & u & e & _ & _ & _ & _ & _ & Hw).
  destruct (Hw [] eq_refl) as [s [[] _]].
Qed.

(** X23. A search returns at most [p_limit] hits, never more than the rows
    that qualify, and lists them by descending similarity. *)
Theorem search_profiles_ordered (db : database) (q : vector)
    (p_skills : option (list string)) (p_limit : option Z) (out : list search_hit) :
  search_allowed vector embedding cosine_distance db q p_skills p_limit out ->
  (forall z, p_limit = Some z -> (Z.of_nat (List.length out) <= z)%Z)
  /\ (List.length out
      <= List.length (search_rows vector embedding cosine_distance db q p_skills))%nat
  /\ StronglySorted (fun a b => (similarity_score b <= similarity_score a)%Q) out.
Proof.
  intros (sorted & missed & Hperm & Hsorted & Hlim). apply sql_limit_Some in Hlim.
  assert (Hs : StronglySorted (fun a b => (similarity_score b <= similarity_score a)%Q)
                 (map snd sorted)).
  { apply (StronglySorted_map_on (fun a b => (fst a <= fst b)%Q)
             (fun a b => (similarity_score b <= similarity_score a)%Q)
             (fun x => similarity_score (snd x) = (1 - fst x)%Q) snd sorted);
      [| |exact Hsorted].
    - intros a b Ha Hb Hab. rewrite Ha, Hb.
      apply Qplus_le_compat; [apply Qle_refl | now apply Qopp_le_compat].
    - intros [d h] Hx.
      assert (Hin : In (d, h) (sorted ++ missed)) by (apply in_or_app; now left).
      apply (Permutation_in _ (Permutation_sym Hperm)) in Hin.
      apply search_rows_In in Hin.
      destruct Hin as (p & u & e & _ & _ & _ & _ & _ & _ & ->). reflexivity. }
  assert (Hall : (List.length (map snd sorted)
                  <= List.length (search_rows vector embedding cosine_distance db q
                                    p_skills))%nat).
  { rewrite length_map, (Permutation_length Hperm), length_app. lia. }
  destruct p_limit as [z|].
  - destruct Hlim as [Hz ->].
    pose proof (firstn_le_length (Z.to_nat z) (map snd sorted)) as Hle1.
    assert (Hle2 : (List.length (firstn (Z.to_nat z) (map snd sorted))
                    <= List.length (map snd sorted))%nat).
    { rewrite length_firstn. lia. }
    split; [|split].
    + intros z' Hz'. injection Hz' as <-. lia.
    + lia.
    + now apply StronglySorted_firstn.
  - subst out. split; [intros z Hz; discriminate Hz|]. split; [exact Hall | exact Hs].
Qed.

End SearchProperties.

(** The sample search without a skills filter finds Alice and Bob; the
    index may answer with Alice alone. *)
Lemma sample_search_allowed :
  search_allowed Q sample_embedding sample_distance sample_db (5 # 10)
    None (Some 10%Z) [bob_hit; alice_hit]
  /\ search_allowed Q sample_embedding sample_distance sample_db (5 # 10)
       None (Some 10%Z) [alice_hit]
  /\ search_allowed Q sample_embedding sample_distance sample_db (5 # 10)
       (Some ["Figma"]) (Some 10%Z) [alice_hit].
Proof.
  split; [|split].
  - exists [(sample_distance (6 # 10) (5 # 10), bob_hit);
            (sample_distance (1 # 10) (5 # 10), alice_hit)], [].
    split; [apply perm_swap|]. split; [|reflexivity].
    repeat constructor. discriminate.
  - exists [(sample_distance (1 # 10) (5 # 10), alice_hit)],
           [(sample_distance (6 # 10) (5 # 10), bob_hit)].
    split; [apply Permutation_refl|]. split; [|reflexivity].
    repeat constructor.
  - exists [(sample_distance (1 # 10) (5 # 10), alice_hit)], [].
    split; [apply Permutation_refl|]. split; [|reflexivity].
    repeat constructor.
Qed.

Lemma search_profiles_hits_witness :
  exists s, In s ["Figma"] /\ In s (sh_skills alice_hit).
Proof.
  destruct (proj1 (search_profiles_hits Q sample_embedding sample_distance sample_db
                     (5 # 10) (Some ["Figma"]) (Some 10%Z) [alice_hit]
                     (proj2 (proj2 sample_search_allowed)))
              alice_hit (or_introl eq_refl))
    as (p & u & e & _ & _ & _ & _ & _ & Hw).
  exact (Hw ["Figma"] eq_refl).
Defined.

Lemma search_profiles_ordered_witness :
  StronglySorted (fun a b => (similarity_score b <= similarity_score a)%Q)
    [bob_hit; alice_hit].
Proof.
  exact (proj2 (proj2 (search_profiles_ordered Q sample_embedding sample_distance
                         sample_db (5 # 10) None (Some 10%Z) [bob_hit; alice_hit]
                         (proj1 sample_search_allowed)))).
Defined.

(** ** Evaluating, recording and ranking together *)

(** X25. When an agent records the verdict [evaluate_match] gives for its user,
    the user is in the ranking of the request afterwards exactly when the
    verdict is positive. *)
Theorem evaluate_record_rank (db : database) (rid uid : uuid) (id : uuid)
    (db' : database) :
  record_agent_response db rid uid (evaluate_match db rid uid) = Ok id db' ->
  ((exists row, In row (coalesce (get_ranked_results db' rid) [])
                /\ rm_user_id row = uid)
   <-> is_match (evaluate_match db rid uid) = true).
Proof.
  intros Hok. apply record_agent_response_spec in Hok.
  destruct Hok as (m & added & Hm & Hdup & _ & Hex & _ & Hu & Hp & Hc & Hs & Hresp & _).
  unfold is_match. rewrite Hm. simpl.
  unfold get_ranked_results. rewrite sql_agg_coalesce.
  assert (Hsort : forall row, In row (sort_desc (ranked_rows db' rid))
                              <-> In row (ranked_rows db' rid)).
  { intros row. pose proof (sort_desc_perm (ranked_rows db' rid)) as Hperm. split.
    - apply (Permutation_in _ (Permutation_sym Hperm)).
    - apply (Permutation_in _ Hperm). }
  split.
  - intros (row & Hin & Hid). apply Hsort, ranked_rows_In in Hin.
    destruct Hin as (ar & u & p & sr & c & Har & _ & _ & _ & _ & Hrid & Hmatch & ->).
    simpl in Hid. rewrite Hresp in Har. apply in_app_or in Har.
    destruct Har as [Har|[<-|[]]]; [|exact Hmatch].
    exfalso.
    assert (existsb (same_pair rid uid) (agent_responses db) = true).
    { apply existsb_exists. exists ar. split; [assumption|].
      unfold same_pair. now rewrite Hrid, Hid, !Nat.eqb_refl. }
    congruence.
  - intros ->.
    assert (Hne : joined_for db (recorded_row id rid uid true (evaluate_match db rid uid))
                  <> [])
      by (apply joined_for_nonempty; exact Hex).
    destruct (joined_for db _) as [|j js] eqn:Ej; [congruence|].
    assert (Hj : In j (joined_for db
                         (recorded_row id rid uid true (evaluate_match db rid uid))))
      by (rewrite Ej; now left).
    apply joined_for_first in Hj. destruct Hj as (u & p & sr & c & ->).
    eexists. split.
    + apply Hsort.
      rewrite (ranked_rows_after_insert db db' _ rid Hu Hp Hc Hs Hresp).
      apply in_or_app. right. rewrite Ej.
      unfold matching_response. simpl. rewrite Nat.eqb_refl. simpl. left. reflexivity.
    + reflexivity.
Qed.

Lemma evaluate_record_rank_witness :
  exists row, In row (coalesce (get_ranked_results recorded_db d_request) [])
              /\ rm_user_id row = alice.
Proof.
  apply (proj2 (evaluate_record_rank workflow_db d_request alice 100%nat recorded_db
                  eq_refl)).
  reflexivity.
Defined.
